(** * parking3: the HTTP back end of the location-sharing application

    A shallow embedding of the two server programs of the repository:

    - [AppJs]   : [backend/app.js], the server with bcrypt password hashing
                  and JWT-protected [GET /locations];
    - [Legacy]  : the earlier server file (plaintext passwords, an
                  additional [GET /login], [POST /send-location],
                  [GET /users]).

    Handlers are functions from a request and the document store to a
    response and the new store.  What JavaScript throws is a value of
    [result]; [try_catch] is the handlers' [try { ... } catch (error)].
    The libraries the programs call (bcrypt, jsonwebtoken, the numeric
    reading of a string) are variables of the sections, with the laws the
    proofs use as hypotheses. *)

From Stdlib Require Import String Ascii List ZArith QArith Lia Bool.
From stdpp Require Import base option list strings sorting gmap.

Set Warnings "-register-all".

Local Open Scope string_scope.
Local Open Scope list_scope.

(** ** JavaScript values carried by JSON bodies *)

(** A JavaScript number: every finite double is a rational, and the
    comparisons of the program are exact on them. *)
Inductive number : Type :=
  | NaN
  | PInf
  | NInf
  | Fin (q : Q).

(** Scalar JSON values.  A property that is absent from an object reads as
    [None] ([undefined]). *)
Inductive value : Type :=
  | VNull
  | VBool (b : bool)
  | VNum (n : number)
  | VStr (s : string).

(** [!v] is [negb (truthy v)]. *)
Definition truthy (v : option value) : bool :=
  match v with
  | None => false
  | Some VNull => false
  | Some (VBool b) => b
  | Some (VNum NaN) => false
  | Some (VNum (Fin q)) => negb (Qeq_bool q 0)
  | Some (VNum _) => true
  | Some (VStr s) => negb (String.eqb s "")
  end.

(** [v == null] *)
Definition loose_null (v : option value) : bool :=
  match v with
  | None | Some VNull => true
  | _ => false
  end.

(** [a < b] on numbers: false as soon as one side is NaN. *)
Definition num_lt (a b : number) : bool :=
  match a, b with
  | Fin x, Fin y => negb (Qle_bool y x)
  | NInf, Fin _ | NInf, PInf | Fin _, PInf => true
  | _, _ => false
  end.

Definition num_finite (a : number) : bool :=
  match a with
  | Fin _ => true
  | _ => false
  end.

Definition num_of_Z (z : Z) : number := Fin (inject_Z z).

(** ** JSON documents sent in responses *)

Inductive json : Type :=
  | JNull
  | JBool (b : bool)
  | JNum (q : Q)
  | JStr (s : string)
  | JId (n : nat)          (* an ObjectId *)
  | JDate (t : nat)        (* a Date, in milliseconds *)
  | JArr (items : list json)
  | JObj (fields : list (string * json)).

(** [JSON.stringify] of a scalar: NaN and the infinities become [null]. *)
Definition json_of_value (v : value) : json :=
  match v with
  | VNull => JNull
  | VBool b => JBool b
  | VNum (Fin q) => JNum q
  | VNum _ => JNull
  | VStr s => JStr s
  end.

(** An object of scalars, as [res.json] writes it. *)
Definition json_of_object (o : gmap string value) : json :=
  JObj (prod_map id json_of_value <$> map_to_list o).

(** [j[k]] for an object [j]. *)
Definition json_field (k : string) (j : json) : option json :=
  match j with
  | JObj fields => snd <$> List.find (fun kv => String.eqb (fst kv) k) fields
  | _ => None
  end.

(** ** Exceptions *)

Inductive exn : Type :=
  | ReferenceError (message : string)
  | CastError (message : string)
  | LibraryError (message : string).

Definition exn_message (e : exn) : string :=
  match e with
  | ReferenceError m | CastError m | LibraryError m => m
  end.

Inductive result (A : Type) : Type :=
  | Ok (a : A)
  | Throw (e : exn).
Arguments Ok {A} a.
Arguments Throw {A} e.

(** Sequencing [x ← m; k]: a throw skips the rest of the block. *)
#[global] Instance result_bind : MBind result := fun A B k m =>
  match m with
  | Ok a => k a
  | Throw e => Throw e
  end.

(** ** Requests and responses *)

Inductive method : Type := GET | POST.

(** What [jwt.verify] hands to its callback: the signed claims with the
    issue and expiry instants (seconds). *)
Record decoded : Type := Decoded {
  d_id : nat;
  d_email : string;
  d_iat : nat;
  d_exp : nat
}.

(** A request as a handler sees it.  Query parameters are strings and the
    fields of a JSON body are scalars; arrays and nested objects are left
    out. *)
Record Request : Type := mkRequest {
  req_method : method;
  req_path : string;                   (* the route path, as the router resolves it *)
  authorization : option string;       (* req.headers.authorization *)
  query : gmap string string;          (* req.query *)
  body : gmap string value;            (* req.body, filled by express.json() *)
  user : option decoded                (* req.user *)
}.

(** [req.user = u] *)
Definition set_user (req : Request) (u : decoded) : Request :=
  mkRequest (req_method req) (req_path req) (authorization req)
    (query req) (body req) (Some u).

Record Response : Type := respond {
  status : nat;
  payload : json
}.

(** ** The document store *)

(** Modelled from the spec: the mongoose models [models/User.js] and
    [models/Location.js] are not in the sources.  A User has an identifier
    given by the store, a username, an email and the [password] field the
    handlers write and read; a LocationSample has an identifier, a latitude,
    a longitude and the timestamp [createdAt] set when it is written.
    Fields of a User are strings, and a scalar of another type is rejected
    by the cast. *)
Record User : Type := mkUser {
  u_id : nat;
  u_username : string;
  u_email : string;
  u_password : string
}.

Record Location : Type := mkLocation {
  l_id : nat;
  l_latitude : Q;
  l_longitude : Q;
  l_createdAt : nat
}.

Record Store : Type := mkStore {
  users : list User;
  locations : list Location;
  next_id : nat
}.

Definition empty_store : Store := mkStore [] [] 0.

(** Modelled from the spec: the schema of [models/User.js] is not in the
    sources; its fields are strings, and a value that is not a string is
    refused when the document or the query is cast. *)
Definition cast_string (field : string) (v : option value) : result string :=
  match v with
  | Some (VStr s) => Ok s
  | _ => Throw (CastError ("Cast to string failed at path " ++ field))
  end.

(** [User.findOne({ email })]: the first user, in insertion order, with
    that email. *)
Definition User_findOne (e : option value) (st : Store) : result (option User) :=
  s ← cast_string "email" e;
  Ok (List.find (fun u => String.eqb (u_email u) s) (users st)).

(** [new User({ username, email, password }).save()]: the store gives the
    identifier.  No uniqueness constraint is assumed of the store; the
    handlers look the email up before they save. *)
Definition User_save (uname mail pwd : option value) (st : Store)
  : result (User * Store) :=
  n ← cast_string "username" uname;
  m ← cast_string "email" mail;
  p ← cast_string "password" pwd;
  let u := mkUser (next_id st) n m p in
  Ok (u, mkStore (users st ++ [u]) (locations st) (S (next_id st))).

(** [new Location({ latitude, longitude }).save()], at time [now].
    Modelled from the spec: the schema of [models/Location.js] is not in
    the sources; the coordinates are numbers, [createdAt] is the time of
    the write. *)
Definition Location_save (lat lon : number) (now : nat) (st : Store)
  : result (Location * Store) :=
  match lat, lon with
  | Fin la, Fin lo =>
      let l := mkLocation (next_id st) la lo now in
      Ok (l, mkStore (users st) (locations st ++ [l]) (S (next_id st)))
  | _, _ => Throw (CastError "Cast to Number failed")
  end.

(** [-createdAt]: later samples first. *)
Definition newer_first (a b : Location) : Prop := l_createdAt b <= l_createdAt a.

#[global] Instance newer_first_dec : RelDecision newer_first.
Proof. intros a b. unfold newer_first. apply _. Defined.

(** [Location.find().sort("-createdAt").limit(10)].  The order among
    samples with the same [createdAt] is that of this sort; no property
    below depends on it. *)
Definition listRecent (st : Store) : list Location :=
  take 10 (merge_sort newer_first (locations st)).

(** The documents of the two collections, as they are sent. *)
Definition location_json (l : Location) : json :=
  JObj [("_id", JId (l_id l));
        ("latitude", JNum (l_latitude l));
        ("longitude", JNum (l_longitude l));
        ("createdAt", JDate (l_createdAt l))].

Definition user_document (u : User) : list (string * json) :=
  [("_id", JId (u_id u));
   ("username", JStr (u_username u));
   ("email", JStr (u_email u));
   ("password", JStr (u_password u))].

(** A projection [{ field: 0 }]. *)
Definition exclude (field : string) (doc : list (string * json))
  : list (string * json) :=
  List.filter (fun kv => negb (String.eqb (fst kv) field)) doc.

(** [try { body } catch (error) { on_error }]: a throw leaves the store as
    it was. *)
Definition try_catch (st : Store) (on_error : exn -> Response)
  (body : result (Response * Store)) : Response * Store :=
  match body with
  | Ok rs => rs
  | Throw e => (on_error e, st)
  end.

(** [res.status(500).json({ error: "Server error", message: error.message })] *)
Definition server_error (e : exn) : Response :=
  respond 500 (JObj [("error", JStr "Server error");
                     ("message", JStr (exn_message e))]).

(** Express's answer when no route matches. *)
Definition not_found : Response := respond 404 JNull.

(** [s.split(" ")] *)
Fixpoint split_on (sep : ascii) (s : string) : list string :=
  match s with
  | EmptyString => [EmptyString]
  | String c r =>
      if Ascii.eqb c sep then EmptyString :: split_on sep r
      else match split_on sep r with
           | w :: ws => String c w :: ws
           | [] => [String c EmptyString]
           end
  end.

(** Identifiers bound at the top level of a program: an identifier that is
    not among them throws when it is evaluated. *)
Definition resolve (bindings : list string) (name : string) : result unit :=
  if bool_decide (name ∈ bindings) then Ok ()
  else Throw (ReferenceError (name ++ " is not defined")).

(** [bcrypt.compare(data, hash)] refuses arguments that are not strings. *)
Definition compare_strings (cmp : string -> string -> bool)
  (data : option value) (hash : string) : result bool :=
  match data with
  | Some (VStr s) => Ok (cmp s hash)
  | _ => Throw (LibraryError "data and hash must be strings")
  end.

(** ** The earlier server *)

Module Legacy.
Section Server.

(** The numeric reading of a string ([Number(s)]). *)
Variable StringToNumber : string -> number.
(** What [bcrypt.compare] would compute, were [bcrypt] bound. *)
Variable bcrypt_compare : string -> string -> bool.
(** [express.static] followed by the [index.html] fallback. *)
Variable static_layer : string -> Response.
(** [process.env.NODE_ENV === "production"] *)
Variable production : bool.

(** The [const] declarations and [require]s of the file. *)
Definition bindings : list string :=
  ["express"; "mongoose"; "cors"; "path"; "Location"; "User"; "app";
   "port"; "server"].

(** [Number(v)] *)
Definition to_number (v : option value) : number :=
  match v with
  | None => NaN
  | Some VNull => num_of_Z 0
  | Some (VBool true) => num_of_Z 1
  | Some (VBool false) => num_of_Z 0
  | Some (VNum n) => n
  | Some (VStr s) => StringToNumber s
  end.

(** The global [isFinite(v)] *)
Definition isFinite (v : option value) : bool := num_finite (to_number v).

Definition json_of_field (v : option value) : json :=
  match v with
  | Some x => json_of_value x
  | None => JNull
  end.

(** [app.post("/send-location", ...)], run at time [now]. *)
Definition post_send_location (now : nat) (req : Request) (st : Store)
  : Response * Store :=
  try_catch st server_error (
    let latitude := body req !! "latitude" in
    let longitude := body req !! "longitude" in
    if loose_null latitude || loose_null longitude then
      Ok (respond 400 (JObj [("error", JStr "Missing required fields");
                             ("received", json_of_object (body req))]), st)
    else if negb (isFinite latitude)
            || num_lt (to_number latitude) (num_of_Z (-90))
            || num_lt (num_of_Z 90) (to_number latitude) then
      Ok (respond 400 (JObj [("error", JStr "Invalid latitude value");
                             ("received", json_of_field latitude)]), st)
    else if negb (isFinite longitude)
            || num_lt (to_number longitude) (num_of_Z (-180))
            || num_lt (num_of_Z 180) (to_number longitude) then
      Ok (respond 400 (JObj [("error", JStr "Invalid longitude value");
                             ("received", json_of_field longitude)]), st)
    else
      saved ← Location_save (to_number latitude) (to_number longitude) now st;
      Ok (respond 200 (JObj [("message", JStr "Location saved successfully");
                             ("location", location_json (fst saved))]),
          snd saved)).

(** [app.get("/locations", ...)] *)
Definition get_locations (req : Request) (st : Store) : Response * Store :=
  (respond 200 (JArr (location_json <$> listRecent st)), st).

(** [app.get("/users", ...)]: [User.find({}, { password: 0 })] *)
Definition get_users (req : Request) (st : Store) : Response * Store :=
  (respond 200 (JArr ((fun u => JObj (exclude "password" (user_document u)))
                        <$> users st)), st).

(** [app.post("/register", ...)] *)
Definition post_register (req : Request) (st : Store) : Response * Store :=
  try_catch st server_error (
    let username := body req !! "username" in
    let email := body req !! "email" in
    let password := body req !! "password" in
    if negb (truthy username) || negb (truthy email) || negb (truthy password) then
      Ok (respond 400 (JObj [("error", JStr "All fields are required")]), st)
    else
      existingUser ← User_findOne email st;
      match existingUser with
      | Some _ =>
          Ok (respond 400 (JObj [("error", JStr "Email is already registered")]), st)
      | None =>
          saved ← User_save username email password st;
          let newUser := fst saved in
          Ok (respond 201
                (JObj [("message", JStr "User registered successfully");
                       ("user", JObj [("id", JId (u_id newUser));
                                      ("username", JStr (u_username newUser));
                                      ("email", JStr (u_email newUser))])]),
              snd saved)
      end).

Definition login_successful (u : User) : Response :=
  respond 200
    (JObj [("message", JStr "Login successful");
           ("user", JObj [("id", JId (u_id u));
                          ("username", JStr (u_username u));
                          ("email", JStr (u_email u))])]).

(** [password === user.password] *)
Definition strict_equal (v : option value) (s : string) : bool :=
  match v with
  | Some (VStr p) => String.eqb p s
  | _ => false
  end.

(** [app.post("/login", ...)] *)
Definition post_login (req : Request) (st : Store) : Response * Store :=
  try_catch st server_error (
    let email := body req !! "email" in
    let password := body req !! "password" in
    if negb (truthy email) || negb (truthy password) then
      Ok (respond 400 (JObj [("error", JStr "Email and password are required")]), st)
    else
      user ← User_findOne email st;
      match user with
      | None => Ok (respond 404 (JObj [("error", JStr "User not found")]), st)
      | Some u =>
          let isPasswordValid := strict_equal password (u_password u) in
          if negb isPasswordValid then
            Ok (respond 401 (JObj [("error", JStr "Invalid email or password")]), st)
          else Ok (login_successful u, st)
      end).

(** A query parameter, as a value. *)
Definition query_param (req : Request) (k : string) : option value :=
  VStr <$> (query req !! k).

(** [app.get("/login", ...)]: the comparison names [bcrypt], which the
    file does not bind. *)
Definition get_login (req : Request) (st : Store) : Response * Store :=
  try_catch st server_error (
    let email := query_param req "email" in
    let password := query_param req "password" in
    if negb (truthy email) || negb (truthy password) then
      Ok (respond 400 (JObj [("error", JStr "Email and password are required")]), st)
    else
      user ← User_findOne email st;
      match user with
      | None => Ok (respond 404 (JObj [("error", JStr "User not found")]), st)
      | Some u =>
          isPasswordValid ← (_ ← resolve bindings "bcrypt";
                             compare_strings bcrypt_compare password (u_password u));
          if negb isPasswordValid then
            Ok (respond 401 (JObj [("error", JStr "Invalid email or password")]), st)
          else Ok (login_successful u, st)
      end).

(** The routes in the order the file registers them: in production the
    static layer and its [app.get("*")] come first and answer every GET. *)
Definition serve (now : nat) (req : Request) (st : Store) : Response * Store :=
  match req_method req with
  | GET =>
      if production then (static_layer (req_path req), st)
      else if String.eqb (req_path req) "/locations" then get_locations req st
      else if String.eqb (req_path req) "/users" then get_users req st
      else if String.eqb (req_path req) "/login" then get_login req st
      else (not_found, st)
  | POST =>
      if String.eqb (req_path req) "/send-location" then post_send_location now req st
      else if String.eqb (req_path req) "/register" then post_register req st
      else if String.eqb (req_path req) "/login" then post_login req st
      else (not_found, st)
  end.

End Server.
End Legacy.

(** ** [backend/app.js] *)

(** The payload [jwt.sign] is given: [{ id: user._id, email: user.email }]. *)
Record claims : Type := Claims {
  c_id : nat;
  c_email : string
}.

Inductive jwt_error : Type :=
  | SecretMissing
  | Malformed
  | InvalidSignature
  | Expired.

Module AppJs.
Section Server.

(** [bcrypt.hash(data, rounds)] with the salt it draws, and
    [bcrypt.compare(data, hash)], on strings. *)
Variable bcrypt_hash : string -> nat -> string -> string.
Variable bcrypt_compare : string -> string -> bool.
(** The token for a payload under a key, with issue and expiry instants;
    and the check of a token under a key at an instant (seconds). *)
Variable jwt_encode : claims -> string -> nat -> nat -> string.
Variable jwt_check : string -> string -> nat -> jwt_error + decoded.
(** [express.static] followed by the [index.html] fallback. *)
Variable static_layer : string -> Response.
(** [process.env.JWT_SECRET] and [process.env.NODE_ENV === "production"] *)
Variable JWT_SECRET : option string.
Variable production : bool.

Definition bindings : list string :=
  ["express"; "mongoose"; "cors"; "jwt"; "bcrypt"; "path"; "Location";
   "User"; "app"; "port"; "authenticateJWT"].

(** [bcrypt.hash] refuses data that is not a string. *)
Definition hash_string (data : option value) (rounds : nat) (salt : string)
  : result string :=
  match data with
  | Some (VStr s) => Ok (bcrypt_hash s rounds salt)
  | _ => Throw (LibraryError "data must be a string or Buffer and salt must either be a salt string or a number of rounds")
  end.

(** A key that is undefined or empty is no key. *)
Definition signing_key (secret : option string) : option string :=
  match secret with
  | Some k => if String.eqb k "" then None else Some k
  | None => None
  end.

(** The clock of jsonwebtoken: [Math.floor(Date.now() / 1000)]. *)
Definition seconds (now : nat) : nat := now / 1000.

(** [jwt.sign(payload, secret, { expiresIn: ttl })] at time [now] *)
Definition jwt_sign (c : claims) (secret : option string) (ttl : nat) (now : nat)
  : result string :=
  match signing_key secret with
  | Some k => Ok (jwt_encode c k (seconds now) (seconds now + ttl))
  | None => Throw (LibraryError "secretOrPrivateKey must have a value")
  end.

(** [jwt.verify(token, secret, callback)] at time [now]: what the callback
    receives. *)
Definition jwt_verify (token : string) (secret : option string) (now : nat)
  : jwt_error + decoded :=
  match signing_key secret with
  | Some k => jwt_check token k (seconds now)
  | None => inl SecretMissing
  end.

Definition one_hour : nat := 3600.

(** [req.headers.authorization?.split(" ")[1]] *)
Definition bearer_token (req : Request) : option string :=
  h ← authorization req; split_on " " h !! 1.

(** [!token] for a string that may be undefined. *)
Definition no_token (token : option string) : bool :=
  match token with
  | None => true
  | Some t => String.eqb t ""
  end.

(** The middleware: [inl] is the response it sends itself, [inr] the
    request it hands to [next()]. *)
Definition authenticateJWT (now : nat) (req : Request) : Response + Request :=
  let token := bearer_token req in
  if no_token token then
    inl (respond 401 (JObj [("error", JStr "Access denied. No token provided.")]))
  else
    match jwt_verify (default "" token) JWT_SECRET now with
    | inl err => inl (respond 403 (JObj [("error", JStr "Invalid token.")]))
    | inr user => inr (set_user req user)
    end.

(** A route guarded by the middleware. *)
Definition protected (now : nat) (handler : Request -> Store -> Response * Store)
  (req : Request) (st : Store) : Response * Store :=
  match authenticateJWT now req with
  | inl response => (response, st)
  | inr req' => handler req' st
  end.

(** [app.post("/register", ...)]; [salt] is the salt [bcrypt.hash] draws. *)
Definition post_register (salt : string) (req : Request) (st : Store)
  : Response * Store :=
  try_catch st server_error (
    let username := body req !! "username" in
    let email := body req !! "email" in
    let password := body req !! "password" in
    if negb (truthy username) || negb (truthy email) || negb (truthy password) then
      Ok (respond 400 (JObj [("error", JStr "All fields are required")]), st)
    else
      existingUser ← User_findOne email st;
      match existingUser with
      | Some _ =>
          Ok (respond 400 (JObj [("error", JStr "Email is already registered.")]), st)
      | None =>
          hashedPassword ← hash_string password 10 salt;
          saved ← User_save username email (Some (VStr hashedPassword)) st;
          Ok (respond 201 (JObj [("message", JStr "User registered successfully.")]),
              snd saved)
      end).

(** [app.post("/login", ...)] at time [now] *)
Definition post_login (now : nat) (req : Request) (st : Store)
  : Response * Store :=
  try_catch st server_error (
    let email := body req !! "email" in
    let password := body req !! "password" in
    if negb (truthy email) || negb (truthy password) then
      Ok (respond 400 (JObj [("error", JStr "Email and password are required.")]), st)
    else
      user ← User_findOne email st;
      match user with
      | None => Ok (respond 404 (JObj [("error", JStr "User not found.")]), st)
      | Some u =>
          isPasswordValid ← compare_strings bcrypt_compare password (u_password u);
          if negb isPasswordValid then
            Ok (respond 401 (JObj [("error", JStr "Invalid email or password.")]), st)
          else
            token ← jwt_sign (Claims (u_id u) (u_email u)) JWT_SECRET one_hour now;
            Ok (respond 200
                  (JObj [("message", JStr "Login successful.");
                         ("token", JStr token);
                         ("user", JObj [("id", JId (u_id u));
                                        ("username", JStr (u_username u));
                                        ("email", JStr (u_email u))])]),
                st)
      end).

(** The handler of [app.get("/locations", authenticateJWT, ...)] *)
Definition get_locations (req : Request) (st : Store) : Response * Store :=
  (respond 200 (JArr (location_json <$> listRecent st)), st).

(** The routes in the order the file registers them; in production the
    static layer comes last and takes the GETs no route matched. *)
Definition serve (now : nat) (salt : string) (req : Request) (st : Store)
  : Response * Store :=
  match req_method req with
  | POST =>
      if String.eqb (req_path req) "/register" then post_register salt req st
      else if String.eqb (req_path req) "/login" then post_login now req st
      else (not_found, st)
  | GET =>
      if String.eqb (req_path req) "/locations" then protected now get_locations req st
      else if production then (static_layer (req_path req), st)
      else (not_found, st)
  end.

End Server.
End AppJs.

(** ** The client pages *)

(** What a request of the client comes back with: nothing (the request
    itself failed), or the response of the server. *)
Inductive reply : Type :=
  | NoReply
  | Reply (r : Response).

(** axios resolves on a status from 200 to 299 and rejects on any other. *)
Definition resolved (r : Response) : bool :=
  Nat.leb 200 (status r) && Nat.ltb (status r) 300.

(** Truthiness of a value read from a response body. *)
Definition json_truthy (j : json) : bool :=
  match j with
  | JNull => false
  | JBool b => b
  | JNum q => negb (Qeq_bool q 0)
  | JStr s => negb (String.eqb s "")
  | JId _ | JDate _ | JArr _ | JObj _ => true
  end.

(** [err.response?.data?.error || fallback] *)
Definition error_message (r : reply) (fallback : string) : json :=
  match r with
  | NoReply => JStr fallback
  | Reply resp =>
      match json_field "error" (payload resp) with
      | Some e => if json_truthy e then e else JStr fallback
      | None => JStr fallback
      end
  end.

(** The request [axios.post(url, data)] sends, for an object of strings. *)
Definition post_json (path : string) (data : gmap string string) : Request :=
  mkRequest POST path None ∅ (VStr <$> data) None.

(** [SignupPage.jsx] *)
Module SignupPage.

Record State : Type := mkState {
  formData : gmap string string;
  error : option json;
  success : option json;
  loading : bool
}.

(** [{ username: '', email: '', password: '' }] *)
Definition empty_form : gmap string string :=
  {[ "username" := ""; "email" := ""; "password" := "" ]}.

Definition initial : State := mkState empty_form None None false.

(** [setFormData({ ...formData, [e.target.name]: e.target.value })] *)
Definition handleChange (name value : string) (s : State) : State :=
  mkState (<[name := value]> (formData s)) (error s) (success s) (loading s).

(** [handleSubmit], with [post] for the exchange with the server: the state
    when the handler has finished.  Reading [message] of a body that is
    [null] throws, and the [catch] block takes over. *)
Definition handleSubmit (post : Request -> reply) (s : State) : State :=
  let answer := post (post_json "/register" (formData s)) in
  match answer with
  | Reply response =>
      if resolved response then
        match payload response with
        | JNull => mkState (formData s) (Some (JStr "Something went wrong")) None false
        | data => mkState empty_form None (json_field "message" data) false
        end
      else mkState (formData s) (Some (error_message answer "Something went wrong"))
             None false
  | NoReply =>
      mkState (formData s) (Some (error_message answer "Something went wrong"))
        None false
  end.

End SignupPage.

(** [LoginPage.jsx] *)
Module LoginPage.

Record State : Type := mkState {
  email : string;
  password : string;
  error : option json;
  loading : bool;
  alerted : option string;        (* the text of [alert] *)
  navigated : option string       (* the route given to [navigate] *)
}.

Definition initial : State := mkState "" "" None false None None.

(** [handleLogin], with [post] for the exchange with the server. *)
Definition handleLogin (post : Request -> reply) (s : State) : State :=
  let answer :=
    post (post_json "/login" {[ "email" := email s; "password" := password s ]}) in
  match answer with
  | Reply response =>
      if resolved response then
        mkState (email s) (password s) None false (Some "Login successful!")
          (Some "/dashboard")
      else
        mkState (email s) (password s)
          (Some (error_message answer "Invalid email or password")) false
          (alerted s) (navigated s)
  | NoReply =>
      mkState (email s) (password s)
        (Some (error_message answer "Invalid email or password")) false
        (alerted s) (navigated s)
  end.

End LoginPage.

(** [LocationPage] of [App.jsx] *)
Module LocationPage.


Record State : Type := mkState {
  currentLocation : option (number * number);
  loading : bool;
  error : option string
}.

Definition initial : State := mkState None true None.






End LocationPage.

(** * Vocabulary of the properties *)

(** The field is absent, or is JSON [null]. *)
Definition missing (v : option value) : Prop := v = None \/ v = Some VNull.

(** The field reads as NaN or as an infinity. *)
Definition non_finite (StringToNumber : string -> number) (v : option value) : Prop :=
  Legacy.to_number StringToNumber v = NaN
  \/ Legacy.to_number StringToNumber v = PInf
  \/ Legacy.to_number StringToNumber v = NInf.

(** The field reads as a finite number outside [lo, hi]. *)
Definition outside (StringToNumber : string -> number) (lo hi : Z)
  (v : option value) : Prop :=
  exists q, Legacy.to_number StringToNumber v = Fin q
            /\ (q < inject_Z lo \/ inject_Z hi < q)%Q.

(** What C3 calls an invalid submission. *)
Definition invalid_coordinates (StringToNumber : string -> number) (req : Request)
  : Prop :=
  let lat := body req !! "latitude" in
  let lon := body req !! "longitude" in
  missing lat \/ missing lon \/
  non_finite StringToNumber lat \/ non_finite StringToNumber lon \/
  outside StringToNumber (-90) 90 lat \/ outside StringToNumber (-180) 180 lon.

Definition has_email (e : string) (u : User) : bool := String.eqb (u_email u) e.

(** A user with the password field blanked: two stores that differ only in
    passwords have the same users up to [forget_password]. *)
Definition forget_password (u : User) : User :=
  mkUser (u_id u) (u_username u) (u_email u) "".

Definition public_document (u : User) : json :=
  JObj [("_id", JId (u_id u));
        ("username", JStr (u_username u));
        ("email", JStr (u_email u))].

Fixpoint contains (c : ascii) (s : string) : bool :=
  match s with
  | EmptyString => false
  | String a r => Ascii.eqb a c || contains c r
  end.

Definition unauthorized : Response :=
  respond 401 (JObj [("error", JStr "Access denied. No token provided.")]).
Definition forbidden : Response :=
  respond 403 (JObj [("error", JStr "Invalid token.")]).

(** The store after a user with these fields has been saved. *)
Definition registered (st : Store) (n m h : string) : Store :=
  mkStore (users st ++ [mkUser (next_id st) n m h]) (locations st) (S (next_id st)).

(** The fields of a registration that passes the checks of the handler. *)
Definition registration (req : Request) (st : Store) (n m p : string) : Prop :=
  body req !! "username" = Some (VStr n)
  /\ body req !! "email" = Some (VStr m)
  /\ body req !! "password" = Some (VStr p)
  /\ n <> "" /\ m <> "" /\ p <> ""
  /\ List.find (has_email m) (users st) = None.

(** A run of a server over a sequence of requests, each with what the
    environment supplies to it (the time, the salt). *)
Definition run {E : Type} (serve : E -> Request -> Store -> Response * Store)
  (trace : list (E * Request)) (st : Store) : Store :=
  fold_left (fun s er => snd (serve (fst er) (snd er) s)) trace st.

(** C1 as it is stated, for a registration handler: a record the handler
    adds never holds the password of the request. *)
Definition never_stores_plaintext
  (register : Request -> Store -> Response * Store) : Prop :=
  forall req st p u,
    body req !! "password" = Some (VStr p) ->
    u ∈ users (snd (register req st)) -> u ∉ users st ->
    u_password u <> p.

(** The user was written by a request of the trace, and holds the digest
    of that request's password. *)
Definition digest_of_trace (bcrypt_hash : string -> nat -> string -> string)
  (trace : list (string * Request)) (u : User) : Prop :=
  exists salt req p,
    (salt, req) ∈ trace
    /\ body req !! "email" = Some (VStr (u_email u))
    /\ body req !! "password" = Some (VStr p)
    /\ u_password u = bcrypt_hash p 10 salt.

Definition unique_emails (st : Store) : Prop := NoDup (u_email <$> users st).

(** C6, first half, for a registration handler run twice ([register1]
    then [register2]): after a registration answered with 201, a second
    one with the same email is answered with 400 and changes nothing, the
    answer being [conflict] when its other fields are filled in; and the
    store holds one user with that email. *)
Definition second_registration_conflicts
  (register1 register2 : Request -> Store -> Response * Store)
  (conflict : Response) : Prop :=
  forall req1 req2 st,
    status (fst (register1 req1 st)) = 201 ->
    body req2 !! "email" = body req1 !! "email" ->
    let st1 := snd (register1 req1 st) in
    status (fst (register2 req2 st1)) = 400
    /\ snd (register2 req2 st1) = st1
    /\ (truthy (body req2 !! "username") = true ->
        truthy (body req2 !! "password") = true ->
        fst (register2 req2 st1) = conflict)
    /\ exists m, body req1 !! "email" = Some (VStr m)
                 /\ length (List.filter (has_email m) (users st1)) = 1.

(** What a request may do to the collection of users: nothing, or add one
    user whose email no stored user has. *)
Definition users_step (st st' : Store) : Prop :=
  users st' = users st
  \/ exists n m h, List.find (has_email m) (users st) = None
                   /\ users st' = users (registered st n m h).

Definition app_js_conflict : Response :=
  respond 400 (JObj [("error", JStr "Email is already registered.")]).
Definition legacy_conflict : Response :=
  respond 400 (JObj [("error", JStr "Email is already registered")]).

Definition login_response (token : string) (u : User) : Response :=
  respond 200
    (JObj [("message", JStr "Login successful.");
           ("token", JStr token);
           ("user", JObj [("id", JId (u_id u));
                          ("username", JStr (u_username u));
                          ("email", JStr (u_email u))])]).

(** The request with another query string. *)
Definition set_query (req : Request) (q : gmap string string) : Request :=
  mkRequest (req_method req) (req_path req) (authorization req) q (body req)
    (user req).

(** No answer of the server depends on the query string. *)
Definition query_blind (serve : Request -> Store -> Response * Store) : Prop :=
  forall req q st, serve (set_query req q) st = serve req st.

(** A login is answered with 200 only for a password of the body that the
    comparison [cmp] of the hashing library accepts against the stored
    field of a user with the email of the body. *)
Definition login_by_digest (cmp : string -> string -> bool)
  (login : Request -> Store -> Response * Store) : Prop :=
  forall req st,
    status (fst (login req st)) = 200 ->
    exists p u,
      body req !! "password" = Some (VStr p)
      /\ body req !! "email" = Some (VStr (u_email u))
      /\ u ∈ users st
      /\ cmp p (u_password u) = true.

(** The field is present and reads as the finite number [q] of [lo, hi]:
    what the checks of [POST /send-location] let through. *)
Definition accepted_coordinate (StringToNumber : string -> number) (lo hi : Z)
  (v : option value) (q : Q) : Prop :=
  loose_null v = false
  /\ Legacy.to_number StringToNumber v = Fin q
  /\ (inject_Z lo <= q)%Q /\ (q <= inject_Z hi)%Q.

(** The store [st'] holds all that [st] holds, unchanged and in the same
    order, and possibly more after it. *)
Definition grows (st st' : Store) : Prop :=
  users st `prefix_of` users st'
  /\ locations st `prefix_of` locations st'
  /\ next_id st <= next_id st'.

(** The user that [User.findOne({ email })] returns for the email [e]. *)
Definition found (e : string) (st : Store) : option User :=
  List.find (has_email e) (users st).


(** The exchange of a page with a server that holds the store [st]: the
    request reaches the server and its answer comes back. *)
Definition answering (serve : Request -> Store -> Response * Store) (st : Store)
  : Request -> reply :=
  fun req => Reply (fst (serve req st)).

(** The signup page after the three fields have been typed. *)
Definition typed (n m p : string) : SignupPage.State :=
  SignupPage.handleChange "password" p
    (SignupPage.handleChange "email" m
       (SignupPage.handleChange "username" n SignupPage.initial)).

(** The login page after the two fields have been typed. *)
Definition credentials (e p : string) : LoginPage.State :=
  LoginPage.mkState e p None false None None.

(** * Stand-ins for the libraries, used to run the servers on examples *)

Module Fake.

(** The first [n] characters of [s], padded with dots. *)
Fixpoint fixed_width (n : nat) (s : string) : string :=
  match n with
  | 0 => EmptyString
  | S n' =>
      match s with
      | EmptyString => String "." (fixed_width n' EmptyString)
      | String c r => String c (fixed_width n' r)
      end
  end.

Definition hash (data : string) (rounds : nat) (salt : string) : string :=
  fixed_width 60 data.

Definition compare (data digest : string) : bool :=
  String.eqb (fixed_width 60 data) digest.

(** [n] in unary, closed by a dot, in front of [rest]. *)
Fixpoint unary (n : nat) (rest : string) : string :=
  match n with
  | 0 => String "." rest
  | S n' => String "i" (unary n' rest)
  end.

Fixpoint read_unary (s : string) : option (nat * string) :=
  match s with
  | EmptyString => None
  | String c r =>
      if Ascii.eqb c "." then Some (0, r)
      else if Ascii.eqb c "i" then prod_map S id <$> read_unary r
      else None
  end.

Fixpoint strip_prefix (p s : string) : option string :=
  match p, s with
  | EmptyString, _ => Some s
  | String a p', String b s' => if Ascii.eqb a b then strip_prefix p' s' else None
  | String _ _, EmptyString => None
  end.

Definition encode (c : claims) (key : string) (iat exp : nat) : string :=
  unary (c_id c) (unary iat (unary exp (String.append key (String "." (c_email c))))).

Definition check (token key : string) (now : nat) : jwt_error + decoded :=
  match read_unary token with
  | Some (id, r1) =>
      match read_unary r1 with
      | Some (iat, r2) =>
          match read_unary r2 with
          | Some (exp, r3) =>
              match strip_prefix key r3 with
              | Some (String "." mail) =>
                  if Nat.leb exp now then inl Expired
                  else inr (Decoded id mail iat exp)
              | _ => inl InvalidSignature
              end
          | None => inl Malformed
          end
      | None => inl Malformed
      end
  | None => inl Malformed
  end.

Definition static_layer (path : string) : Response := respond 200 (JStr "index.html").

End Fake.

(** * Requests and stores of the examples *)

Definition latitude_91 : Request :=
  mkRequest POST "/send-location" None ∅
    {[ "latitude" := VNum (num_of_Z 91); "longitude" := VNum (num_of_Z 0) ]} None.

Definition alice_request : Request :=
  mkRequest POST "/register" None ∅
    {[ "username" := VStr "alice"; "email" := VStr "a@x.com";
       "password" := VStr "secret1" ]} None.

(** The store of the earlier server after alice has registered. *)
Definition legacy_alice : Store := snd (Legacy.post_register alice_request empty_store).

Definition list_users : Request := mkRequest GET "/users" None ∅ ∅ None.

Definition login_query (params : list (string * string)) : Request :=
  mkRequest GET "/login" None (list_to_map params) ∅ None.

Definition alice_login : Request :=
  mkRequest POST "/login" None ∅
    {[ "email" := VStr "a@x.com"; "password" := VStr "secret1" ]} None.

Definition wrong_login : Request :=
  mkRequest POST "/login" None ∅
    {[ "email" := VStr "a@x.com"; "password" := VStr "wrong" ]} None.

(** The store of [app.js] after alice has registered. *)
Definition app_js_alice : Store :=
  snd (AppJs.post_register Fake.hash "salt" alice_request empty_store).

Definition san_francisco : Request :=
  mkRequest POST "/send-location" None ∅
    {[ "latitude" := VNum (Fin (3777 # 100));
       "longitude" := VNum (Fin (-12241 # 100)) ]} None.

(** Fifteen samples, written at times 1 to 15. *)
Definition fifteen_samples : Store :=
  run (Legacy.post_send_location (fun _ => NaN))
    ((fun t => (t, san_francisco)) <$> seq 1 15) empty_store.

Definition alice_token : string := Fake.encode (Claims 0 "a@x.com") "key" 3 4.

Definition locations_request (header : option string) : Request :=
  mkRequest GET "/locations" header ∅ ∅ None.


Definition both_out_of_range : Request :=
  mkRequest POST "/send-location" None ∅
    {[ "latitude" := VNum (num_of_Z 91); "longitude" := VNum (num_of_Z 181) ]} None.



(** * Properties *)

Example split_bearer : split_on " " "Bearer abc.def" = ["Bearer"; "abc.def"].
Proof. reflexivity. Qed.

Example split_single : split_on " " "Bearer" = ["Bearer"].
Proof. reflexivity. Qed.

Example bcrypt_bound_in_app_js : resolve AppJs.bindings "bcrypt" = Ok ().
Proof. reflexivity. Qed.

Example bcrypt_free_in_legacy :
  resolve Legacy.bindings "bcrypt" = Throw (ReferenceError "bcrypt is not defined").
Proof. reflexivity. Qed.

(** ** The scenarios of the specification, run on the stand-ins *)

Example scenario_register_login :
  status (fst (AppJs.post_register Fake.hash "salt" alice_request empty_store)) = 201
  /\ status (fst (AppJs.post_login Fake.compare Fake.encode (Some "key") 5000
                    wrong_login app_js_alice)) = 401
  /\ status (fst (AppJs.post_login Fake.compare Fake.encode (Some "key") 5000
                    alice_login app_js_alice)) = 200
  /\ status (fst (AppJs.post_login Fake.compare Fake.encode None 5000
                    alice_login app_js_alice)) = 500.
Proof. repeat split; reflexivity. Qed.

Example scenario_stored_passwords :
  u_password <$> users app_js_alice = [Fake.hash "secret1" 10 "salt"]
  /\ u_password <$> users legacy_alice = ["secret1"].
Proof. split; reflexivity. Qed.

Example scenario_get_login :
  status (fst (Legacy.get_login Fake.compare (login_query []) legacy_alice)) = 400
  /\ status (fst (Legacy.get_login Fake.compare
                    (login_query [("email", "b@x.com"); ("password", "secret1")])
                    legacy_alice)) = 404
  /\ status (fst (Legacy.get_login Fake.compare
                    (login_query [("email", "a@x.com"); ("password", "secret1")])
                    legacy_alice)) = 500.
Proof. repeat split; reflexivity. Qed.

Example scenario_send_location :
  status (fst (Legacy.post_send_location (fun _ => NaN) 1 san_francisco empty_store))
  = 200
  /\ status (fst (Legacy.post_send_location (fun _ => NaN) 1 latitude_91 empty_store))
     = 400.
Proof. split; reflexivity. Qed.

(** ** Routes *)

Lemma legacy_route_get_login s2n cmp static now req st :
  req_method req = GET -> req_path req = "/login" ->
  Legacy.serve s2n cmp static false now req st = Legacy.get_login cmp req st
  /\ Legacy.serve s2n cmp static true now req st = (static "/login", st).
Proof. intros Hm Hp. unfold Legacy.serve. by rewrite Hm, Hp. Qed.

Lemma legacy_route_get_users s2n cmp static now req st :
  req_method req = GET -> req_path req = "/users" ->
  Legacy.serve s2n cmp static false now req st = Legacy.get_users req st.
Proof. intros Hm Hp. unfold Legacy.serve. by rewrite Hm, Hp. Qed.

Lemma legacy_route_send_location s2n cmp static production now req st :
  req_method req = POST -> req_path req = "/send-location" ->
  Legacy.serve s2n cmp static production now req st
  = Legacy.post_send_location s2n now req st.
Proof. intros Hm Hp. unfold Legacy.serve. by rewrite Hm, Hp. Qed.

Lemma app_js_route_locations hash cmp enc chk static secret production now salt req st :
  req_method req = GET -> req_path req = "/locations" ->
  AppJs.serve hash cmp enc chk static secret production now salt req st
  = AppJs.protected chk secret now AppJs.get_locations req st.
Proof. intros Hm Hp. unfold AppJs.serve. by rewrite Hm, Hp. Qed.

Lemma app_js_no_get_login hash cmp enc chk static secret now salt req st :
  req_method req = GET -> req_path req = "/login" ->
  AppJs.serve hash cmp enc chk static secret false now salt req st = (not_found, st).
Proof. intros Hm Hp. unfold AppJs.serve. by rewrite Hm, Hp. Qed.

(** ** Numbers *)

Lemma num_lt_Fin (x y : Q) : num_lt (Fin x) (Fin y) = true <-> (x < y)%Q.
Proof.
  simpl. rewrite negb_true_iff, <- not_true_iff_false, Qle_bool_iff.
  split; [apply Qnot_le_lt | apply Qlt_not_le].
Qed.

(** ** Coordinates that [POST /send-location] refuses *)

Section SendLocation.

Variable StringToNumber : string -> number.

Abbreviation to_number := (Legacy.to_number StringToNumber).
Abbreviation post_send_location := (Legacy.post_send_location StringToNumber).

Lemma missing_loose_null v : missing v -> loose_null v = true.
Proof. by intros [-> | ->]. Qed.

Lemma non_finite_isFinite v :
  non_finite StringToNumber v -> Legacy.isFinite StringToNumber v = false.
Proof. unfold Legacy.isFinite. by intros [-> | [-> | ->]]. Qed.

Lemma outside_num_lt lo hi v :
  outside StringToNumber lo hi v ->
  num_lt (to_number v) (num_of_Z lo) || num_lt (num_of_Z hi) (to_number v) = true.
Proof.
  intros (q & -> & [H | H]); apply orb_true_iff; [left | right];
    by apply num_lt_Fin.
Qed.

(** C3. A submission whose latitude or longitude is missing, is not
    finite, or lies outside [-90, 90] (resp. [-180, 180]) is answered
    with status 400, and the store is left as it was. *)
Theorem send_location_rejects_invalid (now : nat) (req : Request) (st : Store) :
  invalid_coordinates StringToNumber req ->
  exists why, post_send_location now req st = (respond 400 why, st).
Proof.
  unfold invalid_coordinates, Legacy.post_send_location.
  set (lat := body req !! "latitude"). set (lon := body req !! "longitude").
  intros H.
  destruct (loose_null lat || loose_null lon) eqn:Hnull; [by eexists |].
  apply orb_false_iff in Hnull as [Hlat Hlon].
  destruct H as [H | [H | H]];
    [apply missing_loose_null in H; congruence
    |apply missing_loose_null in H; congruence |].
  cbv iota.
  destruct (negb (Legacy.isFinite StringToNumber lat)
            || num_lt (to_number lat) (num_of_Z (-90))
            || num_lt (num_of_Z 90) (to_number lat)) eqn:Elat; [by eexists |].
  apply orb_false_iff in Elat as [Elat Elat3].
  apply orb_false_iff in Elat as [Elat1 Elat2].
  apply negb_false_iff in Elat1.
  destruct (negb (Legacy.isFinite StringToNumber lon)
            || num_lt (to_number lon) (num_of_Z (-180))
            || num_lt (num_of_Z 180) (to_number lon)) eqn:Elon; [by eexists |].
  apply orb_false_iff in Elon as [Elon Elon3].
  apply orb_false_iff in Elon as [Elon1 Elon2].
  apply negb_false_iff in Elon1.
  exfalso.
  destruct H as [H | [H | [H | H]]].
  - apply non_finite_isFinite in H. congruence.
  - apply non_finite_isFinite in H. congruence.
  - apply outside_num_lt in H. rewrite Elat2, Elat3 in H. discriminate.
  - apply outside_num_lt in H. rewrite Elon2, Elon3 in H. discriminate.
Qed.

End SendLocation.

Lemma send_location_rejects_invalid_witness :
  exists why,
    Legacy.post_send_location (fun _ => NaN) 5 latitude_91 empty_store
    = (respond 400 why, empty_store).
Proof.
  apply (send_location_rejects_invalid (fun _ => NaN) 5 latitude_91 empty_store).
  do 4 right. left. exists (inject_Z 91). split; [reflexivity | right; reflexivity].
Defined.

(** ** Looking a user up by email *)

Lemma findOne_string (e : string) (st : Store) :
  User_findOne (Some (VStr e)) st = Ok (List.find (has_email e) (users st)).
Proof. reflexivity. Qed.

Lemma find_has_email_Some e l u :
  List.find (has_email e) l = Some u -> u ∈ l /\ u_email u = e.
Proof.
  intros H. apply find_some in H as [Hin He].
  split; [by apply list_elem_of_In | by apply String.eqb_eq].
Qed.

Lemma find_has_email_None e l :
  List.find (has_email e) l = None <-> forall u, u ∈ l -> u_email u <> e.
Proof.
  split.
  - intros H u Hu He. apply list_elem_of_In in Hu.
    pose proof (find_none _ _ H u Hu) as Hf. unfold has_email in Hf.
    apply String.eqb_neq in Hf. contradiction.
  - intros H. destruct (List.find (has_email e) l) as [u |] eqn:E; [| done].
    apply find_has_email_Some in E as [Hin He]. by destruct (H u Hin).
Qed.

Lemma find_has_email_exists e l u :
  u ∈ l -> u_email u = e -> exists u', List.find (has_email e) l = Some u'.
Proof.
  intros Hin He. destruct (List.find (has_email e) l) as [u' |] eqn:E; [eauto |].
  rewrite find_has_email_None in E. by destruct (E u Hin).
Qed.

Lemma truthy_string (s : string) : s <> "" -> truthy (Some (VStr s)) = true.
Proof. intros H. simpl. by apply negb_true_iff, String.eqb_neq. Qed.

Lemma truthy_string_inv (s : string) : truthy (Some (VStr s)) = true -> s <> "".
Proof. intros H. simpl in H. by apply negb_true_iff, String.eqb_neq in H. Qed.

(** ** The listing of users *)

Lemma exclude_password (u : User) :
  JObj (exclude "password" (user_document u)) = public_document u.
Proof. reflexivity. Qed.

Lemma get_users_public req st :
  Legacy.get_users req st = (respond 200 (JArr (public_document <$> users st)), st).
Proof. reflexivity. Qed.

Lemma public_document_forget u : public_document (forget_password u) = public_document u.
Proof. reflexivity. Qed.

Lemma public_documents_forget (l : list User) :
  public_document <$> (forget_password <$> l) = public_document <$> l.
Proof. induction l as [| u l IH]; csimpl; [done | by rewrite IH]. Qed.

(** C8. The answer of [GET /users] is the same for two stores whose users
    differ only in their password fields, and no record of the answer has
    a [password] field. *)
Theorem users_listing_omits_password (req1 req2 : Request) (st1 st2 : Store) :
  forget_password <$> users st1 = forget_password <$> users st2 ->
  fst (Legacy.get_users req1 st1) = fst (Legacy.get_users req2 st2)
  /\ exists docs,
       fst (Legacy.get_users req1 st1) = respond 200 (JArr docs)
       /\ length docs = length (users st1)
       /\ forall d, d ∈ docs -> json_field "password" d = None.
Proof.
  intros H. rewrite !get_users_public. simpl. split.
  - f_equal. f_equal.
    by rewrite <- (public_documents_forget (users st1)),
               <- (public_documents_forget (users st2)), H.
  - eexists. split; [reflexivity |]. split; [by rewrite length_fmap |].
    intros d Hd. apply list_elem_of_fmap in Hd as (u & -> & _). reflexivity.
Qed.

Example legacy_alice_users :
  users legacy_alice = [mkUser 0 "alice" "a@x.com" "secret1"].
Proof. reflexivity. Qed.

Lemma users_listing_omits_password_witness :
  fst (Legacy.get_users list_users legacy_alice)
  = fst (Legacy.get_users list_users (mkStore [mkUser 0 "alice" "a@x.com" "other"] [] 1))
  /\ exists docs,
       fst (Legacy.get_users list_users legacy_alice) = respond 200 (JArr docs)
       /\ length docs = length (users legacy_alice)
       /\ forall d, d ∈ docs -> json_field "password" d = None.
Proof.
  apply (users_listing_omits_password list_users list_users legacy_alice
           (mkStore [mkUser 0 "alice" "a@x.com" "other"] [] 1)).
  reflexivity.
Defined.

(** ** [GET /login] of the earlier server *)

Section GetLogin.

Variable bcrypt_compare : string -> string -> bool.

Abbreviation get_login := (Legacy.get_login bcrypt_compare).

Lemma get_login_found req st e p u :
  query req !! "email" = Some e -> query req !! "password" = Some p ->
  e <> "" -> p <> "" ->
  List.find (has_email e) (users st) = Some u ->
  get_login req st = (server_error (ReferenceError "bcrypt is not defined"), st).
Proof.
  intros He Hp Hne Hnp Hfind. unfold Legacy.get_login, Legacy.query_param.
  rewrite He, Hp. simpl fmap.
  rewrite !truthy_string by done. cbv iota. simpl negb. simpl orb. cbv iota.
  rewrite findOne_string, Hfind. reflexivity.
Qed.

Lemma get_login_status req st :
  status (fst (get_login req st)) = 400
  \/ status (fst (get_login req st)) = 404
  \/ status (fst (get_login req st)) = 500.
Proof.
  unfold Legacy.get_login, Legacy.query_param.
  destruct (negb (truthy (VStr <$> query req !! "email"))
            || negb (truthy (VStr <$> query req !! "password"))) eqn:E;
    [by left |].
  destruct (query req !! "email") as [e |]; [| discriminate E].
  simpl fmap. rewrite findOne_string.
  destruct (List.find (has_email e) (users st)); [right; right | right; left];
    reflexivity.
Qed.

Lemma get_login_incomplete req st k :
  k = "email" \/ k = "password" ->
  query req !! k = None \/ query req !! k = Some "" ->
  get_login req st
  = (respond 400 (JObj [("error", JStr "Email and password are required")]), st).
Proof.
  intros Hk Hq. unfold Legacy.get_login, Legacy.query_param.
  assert (Hfalse : truthy (VStr <$> query req !! k) = false)
    by (destruct Hq as [-> | ->]; reflexivity).
  destruct Hk as [-> | ->]; rewrite Hfalse; [reflexivity |].
  by rewrite orb_true_r.
Qed.

(** C9, as amended. A [GET /login] request with a non-empty email that
    matches a stored user and a non-empty password is answered with
    status 500: evaluating [bcrypt] throws, the handler catches the
    error.  A request whose email or password is absent or empty is
    answered with 400.  No request to [GET /login] is answered with
    status 200. *)
Theorem get_login_existing_user (req : Request) (st : Store) :
  (forall e p u,
      query req !! "email" = Some e -> query req !! "password" = Some p ->
      e <> "" -> p <> "" -> u ∈ users st -> u_email u = e ->
      get_login req st
      = (respond 500 (JObj [("error", JStr "Server error");
                            ("message", JStr "bcrypt is not defined")]), st))
  /\ (forall k,
         k = "email" \/ k = "password" ->
         query req !! k = None \/ query req !! k = Some "" ->
         get_login req st
         = (respond 400 (JObj [("error", JStr "Email and password are required")]),
            st))
  /\ status (fst (get_login req st)) <> 200.
Proof.
  split; [| split].
  - intros e p u He Hp Hne Hnp Hin Hu.
    destruct (find_has_email_exists e (users st) u Hin Hu) as [u' Hfind].
    by rewrite (get_login_found req st e p u').
  - apply get_login_incomplete.
  - destruct (get_login_status req st) as [H | [H | H]]; rewrite H; lia.
Qed.

End GetLogin.

Lemma get_login_existing_user_witness :
  Legacy.get_login (fun _ _ => true)
    (login_query [("email", "a@x.com"); ("password", "secret1")]) legacy_alice
  = (respond 500 (JObj [("error", JStr "Server error");
                        ("message", JStr "bcrypt is not defined")]), legacy_alice).
Proof.
  apply (proj1 (get_login_existing_user (fun _ _ => true)
                  (login_query [("email", "a@x.com"); ("password", "secret1")])
                  legacy_alice)
           "a@x.com" "secret1" (mkUser 0 "alice" "a@x.com" "secret1"));
    try reflexivity; try discriminate.
  apply list_elem_of_here.
Defined.

(** C9, as stated, fails: with the email of a stored user and no password
    the answer is 400, not 500. *)
Lemma get_login_without_password :
  ~ (forall (req : Request) (st : Store) (e : string) (u : User),
        query req !! "email" = Some e -> u ∈ users st -> u_email u = e ->
        status (fst (Legacy.get_login (fun _ _ => true) req st)) = 500).
Proof.
  intros H.
  specialize (H (login_query [("email", "a@x.com")]) legacy_alice "a@x.com"
                (mkUser 0 "alice" "a@x.com" "secret1")).
  assert (E : status (fst (Legacy.get_login (fun _ _ => true)
                             (login_query [("email", "a@x.com")]) legacy_alice))
              = 400) by reflexivity.
  specialize (H eq_refl (list_elem_of_here _ _) eq_refl).
  rewrite E in H. discriminate H.
Qed.

(** ** The authorization middleware *)

Lemma split_on_word sep w : contains sep w = false -> split_on sep w = [w].
Proof.
  induction w as [| a w IH]; simpl; [done |].
  intros [Ha Hw]%orb_false_iff. by rewrite Ha, IH.
Qed.

Lemma split_on_app sep w r :
  contains sep w = false ->
  split_on sep (w ++ String sep r) = w :: split_on sep r.
Proof.
  induction w as [| a w IH]; simpl.
  - intros _. by rewrite Ascii.eqb_refl.
  - intros [Ha Hw]%orb_false_iff. by rewrite Ha, IH.
Qed.

Lemma split_on_scheme_token scheme tok :
  contains " " scheme = false -> contains " " tok = false ->
  split_on " " (scheme ++ " " ++ tok)%string !! 1 = Some tok.
Proof.
  intros Hs Ht. change (" " ++ tok)%string with (String " " tok).
  by rewrite split_on_app, split_on_word.
Qed.

Section Middleware.

Variable jwt_check : string -> string -> nat -> jwt_error + decoded.
Variable JWT_SECRET : option string.

Abbreviation authenticateJWT := (AppJs.authenticateJWT jwt_check JWT_SECRET).
Abbreviation protected := (AppJs.protected jwt_check JWT_SECRET).
Abbreviation jwt_verify := (AppJs.jwt_verify jwt_check).

Lemma authenticateJWT_no_token now req :
  AppJs.no_token (AppJs.bearer_token req) = true ->
  authenticateJWT now req = inl unauthorized.
Proof. intros H. unfold AppJs.authenticateJWT. by rewrite H. Qed.

Lemma authenticateJWT_token now req t :
  AppJs.bearer_token req = Some t -> t <> "" ->
  authenticateJWT now req
  = match jwt_verify t JWT_SECRET now with
    | inl _ => inl forbidden
    | inr d => inr (set_user req d)
    end.
Proof.
  intros H Hne. unfold AppJs.authenticateJWT. rewrite H. simpl.
  apply String.eqb_neq in Hne. by rewrite Hne.
Qed.

(** C5. On a protected route: without a token the answer is 401; with a
    token that [jwt.verify] rejects the answer is 403; in both cases the
    handler does not run and the store is untouched.  With a token that
    verifies, the handler runs on the request carrying the decoded
    claims in [req.user]. *)
Theorem protected_route (now : nat)
  (handler : Request -> Store -> Response * Store) (req : Request) (st : Store) :
  (authorization req = None -> protected now handler req st = (unauthorized, st))
  /\ (AppJs.no_token (AppJs.bearer_token req) = true ->
      protected now handler req st = (unauthorized, st))
  /\ (forall t err,
         AppJs.bearer_token req = Some t -> t <> "" ->
         jwt_verify t JWT_SECRET now = inl err ->
         protected now handler req st = (forbidden, st))
  /\ (forall t d,
         AppJs.bearer_token req = Some t -> t <> "" ->
         jwt_verify t JWT_SECRET now = inr d ->
         protected now handler req st = handler (set_user req d) st
         /\ user (set_user req d) = Some d).
Proof.
  unfold AppJs.protected. split; [| split; [| split]].
  - intros H. rewrite authenticateJWT_no_token; [done |].
    unfold AppJs.bearer_token. by rewrite H.
  - intros H. by rewrite authenticateJWT_no_token.
  - intros t err Ht Hne Hv. by rewrite (authenticateJWT_token now req t), Hv.
  - intros t d Ht Hne Hv. by rewrite (authenticateJWT_token now req t), Hv.
Qed.

(** C10. The token is the second component of the header split at its
    spaces, and the scheme word is not looked at: whatever word precedes
    the space, the token after it is the one verified, and a token that
    verifies lets the request through.  A header of a single word has no
    second component and is answered with 401. *)
Theorem scheme_is_not_checked (now : nat) (req : Request) :
  (forall h, authorization req = Some h ->
             AppJs.bearer_token req = split_on " " h !! 1)
  /\ (forall scheme tok d,
         contains " " scheme = false -> contains " " tok = false -> tok <> "" ->
         authorization req = Some (scheme ++ " " ++ tok)%string ->
         jwt_verify tok JWT_SECRET now = inr d ->
         authenticateJWT now req = inr (set_user req d))
  /\ (forall word,
         contains " " word = false ->
         authorization req = Some word ->
         authenticateJWT now req = inl unauthorized).
Proof.
  split; [| split].
  - intros h Hh. unfold AppJs.bearer_token. by rewrite Hh.
  - intros scheme tok d Hs Ht Hne Hh Hv.
    rewrite (authenticateJWT_token now req tok), Hv; [done | | done].
    unfold AppJs.bearer_token. rewrite Hh. simpl.
    by apply split_on_scheme_token.
  - intros word Hw Hh. apply authenticateJWT_no_token.
    unfold AppJs.bearer_token. rewrite Hh. simpl.
    by rewrite split_on_word.
Qed.

End Middleware.

(** The header is split at each space: two spaces in a row leave an empty
    second component, which counts as no token. *)
Example two_spaces_no_token :
  AppJs.bearer_token (locations_request (Some "Bearer  abc.def")) = Some ""
  /\ AppJs.authenticateJWT Fake.check (Some "key") 3000
       (locations_request (Some "Bearer  abc.def"))
     = inl unauthorized.
Proof. split; reflexivity. Qed.

(** ** The stand-ins obey the laws asked of the libraries *)

Module FakeLaws.
Import Fake.

Lemma length_fixed_width n s : String.length (fixed_width n s) = n.
Proof.
  revert s. induction n as [| n IH]; intros s; simpl; [done |].
  destruct s; simpl; by rewrite IH.
Qed.

Lemma length_hash data rounds salt : String.length (hash data rounds salt) = 60.
Proof. apply length_fixed_width. Qed.

Lemma compare_hash data rounds salt : compare data (hash data rounds salt) = true.
Proof. apply String.eqb_refl. Qed.

Lemma read_unary_unary n rest : read_unary (unary n rest) = Some (n, rest).
Proof. induction n as [| n IH]; simpl; [done | by rewrite IH]. Qed.

Lemma strip_prefix_app p s : strip_prefix p (String.append p s) = Some s.
Proof. induction p as [| a p IH]; simpl; [done | by rewrite Ascii.eqb_refl]. Qed.

Lemma check_encode c key iat exp now :
  now < exp ->
  check (encode c key iat exp) key now = inr (Decoded (c_id c) (c_email c) iat exp).
Proof.
  intros H. unfold check, encode.
  rewrite !read_unary_unary, strip_prefix_app.
  destruct (Nat.leb_spec exp now); [lia | done].
Qed.

End FakeLaws.

(** ** Registration *)

Ltac register_cases req st :=
  let E := fresh "E" in
  destruct (negb (truthy (body req !! "username"))
            || negb (truthy (body req !! "email"))
            || negb (truthy (body req !! "password"))) eqn:E;
  [ right; split; [reflexivity | left; reflexivity] |];
  apply orb_false_iff in E as [E ?]; apply orb_false_iff in E as [? ?];
  repeat match goal with
         | H : negb _ = false |- _ => apply negb_false_iff in H
         end;
  destruct (body req !! "email") as [[| ? | ? | em] |] eqn:Hem;
  try (right; split; [reflexivity | right; reflexivity]);
  rewrite findOne_string;
  destruct (List.find (has_email em) (users st)) eqn:Hfind;
  [ right; split; [reflexivity | left; reflexivity] |];
  destruct (body req !! "password") as [[| ? | ? | pw] |] eqn:Hpw;
  destruct (body req !! "username") as [[| ? | ? | un] |] eqn:Hun;
  try (right; split; [reflexivity | right; reflexivity]);
  left; exists un, em, pw;
  split;
  [repeat apply conj; first [reflexivity | assumption | by apply truthy_string_inv] |].

Lemma app_js_register_cases bcrypt_hash salt req st :
  (exists n m p,
      registration req st n m p
      /\ AppJs.post_register bcrypt_hash salt req st
         = (respond 201 (JObj [("message", JStr "User registered successfully.")]),
            registered st n m (bcrypt_hash p 10 salt)))
  \/ (snd (AppJs.post_register bcrypt_hash salt req st) = st
      /\ (status (fst (AppJs.post_register bcrypt_hash salt req st)) = 400
          \/ status (fst (AppJs.post_register bcrypt_hash salt req st)) = 500)).
Proof.
  unfold AppJs.post_register, registration.
  register_cases req st. reflexivity.
Qed.

Lemma legacy_register_cases req st :
  (exists n m p,
      registration req st n m p
      /\ Legacy.post_register req st
         = (respond 201
              (JObj [("message", JStr "User registered successfully");
                     ("user", JObj [("id", JId (next_id st));
                                    ("username", JStr n);
                                    ("email", JStr m)])]),
            registered st n m p))
  \/ (snd (Legacy.post_register req st) = st
      /\ (status (fst (Legacy.post_register req st)) = 400
          \/ status (fst (Legacy.post_register req st)) = 500)).
Proof.
  unfold Legacy.post_register, registration.
  register_cases req st. reflexivity.
Qed.

Lemma app_js_register_ok bcrypt_hash salt req st n m p :
  registration req st n m p ->
  AppJs.post_register bcrypt_hash salt req st
  = (respond 201 (JObj [("message", JStr "User registered successfully.")]),
     registered st n m (bcrypt_hash p 10 salt)).
Proof.
  intros (Hn & Hm & Hp & Hnn & Hnm & Hnp & Hfind). unfold AppJs.post_register.
  rewrite Hn, Hm, Hp, !truthy_string by done. cbv iota. simpl orb. cbv iota.
  by rewrite findOne_string, Hfind.
Qed.

Lemma legacy_register_ok req st n m p :
  registration req st n m p ->
  Legacy.post_register req st
  = (respond 201
       (JObj [("message", JStr "User registered successfully");
              ("user", JObj [("id", JId (next_id st));
                             ("username", JStr n);
                             ("email", JStr m)])]),
     registered st n m p).
Proof.
  intros (Hn & Hm & Hp & Hnn & Hnm & Hnp & Hfind). unfold Legacy.post_register.
  rewrite Hn, Hm, Hp, !truthy_string by done. cbv iota. simpl orb. cbv iota.
  by rewrite findOne_string, Hfind.
Qed.

Lemma run_snoc {E : Type} (serve : E -> Request -> Store -> Response * Store)
  trace e req st :
  run serve (trace ++ [(e, req)]) st = snd (serve e req (run serve trace st)).
Proof. unfold run. by rewrite fold_left_app. Qed.

(** ** What registration writes in the password field *)

(** C1 fails on the earlier server: it saves the password as supplied. *)
Lemma legacy_register_stores_plaintext : ~ never_stores_plaintext Legacy.post_register.
Proof.
  intros H.
  apply (H alice_request empty_store "secret1" (mkUser 0 "alice" "a@x.com" "secret1")).
  - reflexivity.
  - apply list_elem_of_here.
  - apply not_elem_of_nil.
  - reflexivity.
Qed.

Section PasswordField.

Variable bcrypt_hash : string -> nat -> string -> string.

(** A bcrypt digest is a string of 60 characters. *)
Hypothesis bcrypt_hash_length :
  forall data rounds salt, String.length (bcrypt_hash data rounds salt) = 60.

Abbreviation post_register := (AppJs.post_register bcrypt_hash).

Lemma register_new_user salt req st p u :
  body req !! "password" = Some (VStr p) ->
  u ∈ users (snd (post_register salt req st)) -> u ∉ users st ->
  body req !! "email" = Some (VStr (u_email u))
  /\ u_password u = bcrypt_hash p 10 salt.
Proof.
  intros Hp Hin Hnew.
  destruct (app_js_register_cases bcrypt_hash salt req st)
    as [(n & m & p' & Hreg & Heq) | [Hst _]].
  - destruct Hreg as (_ & Hm & Hp' & _). rewrite Heq in Hin. simpl in Hin.
    apply elem_of_app in Hin as [Hin | Hin]; [contradiction |].
    apply list_elem_of_singleton in Hin as ->. simpl.
    split; [done | congruence].
  - rewrite Hst in Hin. contradiction.
Qed.

Lemma digest_of_trace_mono trace x u :
  digest_of_trace bcrypt_hash trace u -> digest_of_trace bcrypt_hash (trace ++ [x]) u.
Proof.
  intros (salt & req & p & Hin & H). exists salt, req, p.
  split; [| done]. apply elem_of_app. by left.
Qed.

Lemma run_register_digests (trace : list (string * Request)) :
  Forall (digest_of_trace bcrypt_hash trace)
    (users (run post_register trace empty_store)).
Proof.
  induction trace as [| [salt req] trace IH] using rev_ind.
  - constructor.
  - rewrite run_snoc.
    destruct (app_js_register_cases bcrypt_hash salt req
                (run post_register trace empty_store))
      as [(n & m & p & Hreg & ->) | [-> _]]; simpl.
    + apply Forall_app. split.
      * eapply Forall_impl; [exact IH |]. intros u. apply digest_of_trace_mono.
      * constructor; [| constructor].
        destruct Hreg as (_ & Hm & Hp & _).
        exists salt, req, p. simpl.
        split; [apply elem_of_app; right; apply list_elem_of_here | done].
    + eapply Forall_impl; [exact IH |]. intros u. apply digest_of_trace_mono.
Qed.

(** C1, as amended. In [app.js] the password field of a record added by a
    registration is [bcrypt.hash(password, 10)], a digest of 60 characters,
    so it differs from a password of any other length; after any sequence
    of registrations every stored password field is such a digest.  The
    earlier server saves the password as it was supplied. *)
Theorem register_stores_digest :
  (forall salt req st p u,
      body req !! "password" = Some (VStr p) ->
      u ∈ users (snd (post_register salt req st)) -> u ∉ users st ->
      u_password u = bcrypt_hash p 10 salt
      /\ (String.length p <> 60 -> u_password u <> p))
  /\ (forall trace,
         Forall (digest_of_trace bcrypt_hash trace)
           (users (run post_register trace empty_store)))
  /\ (forall req st n m p,
         registration req st n m p ->
         users (snd (Legacy.post_register req st))
         = users st ++ [mkUser (next_id st) n m p]).
Proof.
  split; [| split].
  - intros salt req st p u Hp Hin Hnew.
    destruct (register_new_user salt req st p u Hp Hin Hnew) as [_ Hu].
    split; [done |]. intros Hlen Heq. apply Hlen.
    by rewrite <- Heq, Hu, bcrypt_hash_length.
  - apply run_register_digests.
  - intros req st n m p Hreg. by rewrite (legacy_register_ok req st n m p Hreg).
Qed.

End PasswordField.

Lemma register_stores_digest_witness :
  u_password (mkUser 0 "alice" "a@x.com" (Fake.hash "secret1" 10 "salt"))
  = Fake.hash "secret1" 10 "salt"
  /\ (String.length "secret1" <> 60 ->
      u_password (mkUser 0 "alice" "a@x.com" (Fake.hash "secret1" 10 "salt"))
      <> "secret1").
Proof.
  apply (proj1 (register_stores_digest Fake.hash FakeLaws.length_hash)
           "salt" alice_request empty_store "secret1"
           (mkUser 0 "alice" "a@x.com" (Fake.hash "secret1" 10 "salt"))).
  - reflexivity.
  - apply list_elem_of_here.
  - apply not_elem_of_nil.
Defined.

(** ** One user per email *)

Lemma filter_has_email_None m l :
  List.find (has_email m) l = None -> List.filter (has_email m) l = [].
Proof.
  induction l as [| u l IH]; simpl; [done |].
  destruct (has_email m u); [discriminate | exact IH].
Qed.

Lemma registered_one_user st n m h :
  List.find (has_email m) (users st) = None ->
  length (List.filter (has_email m) (users (registered st n m h))) = 1.
Proof.
  intros H. simpl. rewrite List.filter_app, filter_has_email_None by done.
  simpl. unfold has_email at 1. simpl. by rewrite String.eqb_refl.
Qed.

Lemma registered_find st n m h :
  exists u, List.find (has_email m) (users (registered st n m h)) = Some u.
Proof.
  apply (find_has_email_exists m _ (mkUser (next_id st) n m h)); [| done].
  simpl. apply elem_of_app. right. apply list_elem_of_here.
Qed.

Lemma registered_unique st n m h :
  List.find (has_email m) (users st) = None ->
  unique_emails st -> unique_emails (registered st n m h).
Proof.
  unfold unique_emails. intros Hfind Hnd. simpl. rewrite fmap_app.
  apply NoDup_app. split; [done |]. split; [| apply NoDup_singleton].
  intros e He Hin. apply list_elem_of_singleton in Hin as ->.
  apply list_elem_of_fmap in He as (u & Hu & Hin).
  rewrite find_has_email_None in Hfind. by destruct (Hfind u Hin).
Qed.

Lemma users_step_unique st st' :
  users_step st st' -> unique_emails st -> unique_emails st'.
Proof.
  intros [H | (n & m & h & Hfind & H)] Hu.
  - unfold unique_emails. by rewrite H.
  - unfold unique_emails. rewrite H. by apply registered_unique.
Qed.

Lemma run_unique {E : Type} (serve : E -> Request -> Store -> Response * Store) :
  (forall e req st, users_step st (snd (serve e req st))) ->
  forall trace st, unique_emails st -> unique_emails (run serve trace st).
Proof.
  intros Hstep trace st Hu.
  induction trace as [| [e req] trace IH] using rev_ind; [done |].
  rewrite run_snoc. eapply users_step_unique; [apply Hstep | exact IH].
Qed.

(** The handlers that only read the store. *)
Ltac by_cases :=
  repeat match goal with
         | |- context [if ?c then _ else _] => destruct c
         | |- context [match ?x with _ => _ end] => destruct x
         end;
  try reflexivity.

Lemma app_js_login_store cmp enc secret now req st :
  snd (AppJs.post_login cmp enc secret now req st) = st.
Proof.
  unfold AppJs.post_login, User_findOne, compare_strings, AppJs.jwt_sign,
    cast_string, mbind, result_bind.
  by_cases.
Qed.

Lemma legacy_login_store req st : snd (Legacy.post_login req st) = st.
Proof.
  unfold Legacy.post_login, User_findOne, cast_string, mbind, result_bind.
  by_cases.
Qed.

Lemma legacy_get_login_store cmp req st : snd (Legacy.get_login cmp req st) = st.
Proof.
  unfold Legacy.get_login, User_findOne, compare_strings, cast_string, mbind,
    result_bind.
  by_cases.
Qed.

Lemma Location_save_Ok lat lon now st l st' :
  Location_save lat lon now st = Ok (l, st') ->
  exists la lo,
    lat = Fin la /\ lon = Fin lo
    /\ l = mkLocation (next_id st) la lo now
    /\ st' = mkStore (users st) (locations st ++ [l]) (S (next_id st)).
Proof.
  unfold Location_save. destruct lat as [| | | la]; try discriminate.
  destruct lon as [| | | lo]; try discriminate.
  intros [= <- <-]. by exists la, lo.
Qed.

Lemma legacy_send_location_users s2n now req st :
  users (snd (Legacy.post_send_location s2n now req st)) = users st.
Proof.
  unfold Legacy.post_send_location.
  repeat match goal with
         | |- context [if ?c then _ else _] => destruct c; [reflexivity |]
         end.
  destruct (Location_save _ _ now st) as [[l st'] | e] eqn:E; [| reflexivity].
  apply Location_save_Ok in E as (la & lo & _ & _ & _ & ->). reflexivity.
Qed.

Lemma app_js_protected_store chk secret now handler req st :
  (forall r, snd (handler r st) = st) ->
  snd (AppJs.protected chk secret now handler req st) = st.
Proof.
  intros H. unfold AppJs.protected.
  destruct (AppJs.authenticateJWT chk secret now req); [done | apply H].
Qed.

Section OneUserPerEmail.

Variable bcrypt_hash : string -> nat -> string -> string.
Variable bcrypt_compare : string -> string -> bool.
Variable jwt_encode : claims -> string -> nat -> nat -> string.
Variable jwt_check : string -> string -> nat -> jwt_error + decoded.
Variable StringToNumber : string -> number.
Variable static_layer : string -> Response.
Variable JWT_SECRET : option string.
Variable production : bool.

Abbreviation app_js_register := (AppJs.post_register bcrypt_hash).
Abbreviation app_js_serve :=
  (AppJs.serve bcrypt_hash bcrypt_compare jwt_encode jwt_check static_layer
     JWT_SECRET production).
Abbreviation legacy_serve :=
  (Legacy.serve StringToNumber bcrypt_compare static_layer production).

Lemma app_js_register_again salt req st m u :
  body req !! "email" = Some (VStr m) ->
  List.find (has_email m) (users st) = Some u ->
  app_js_register salt req st
  = (if negb (truthy (body req !! "username")) || negb (truthy (Some (VStr m)))
        || negb (truthy (body req !! "password"))
     then respond 400 (JObj [("error", JStr "All fields are required")])
     else app_js_conflict, st).
Proof.
  intros Hm Hfind. unfold AppJs.post_register. rewrite Hm.
  destruct (negb (truthy (body req !! "username")) || negb (truthy (Some (VStr m)))
            || negb (truthy (body req !! "password"))) eqn:E; [reflexivity |].
  by rewrite findOne_string, Hfind.
Qed.

Lemma legacy_register_again req st m u :
  body req !! "email" = Some (VStr m) ->
  List.find (has_email m) (users st) = Some u ->
  Legacy.post_register req st
  = (if negb (truthy (body req !! "username")) || negb (truthy (Some (VStr m)))
        || negb (truthy (body req !! "password"))
     then respond 400 (JObj [("error", JStr "All fields are required")])
     else legacy_conflict, st).
Proof.
  intros Hm Hfind. unfold Legacy.post_register. rewrite Hm.
  destruct (negb (truthy (body req !! "username")) || negb (truthy (Some (VStr m)))
            || negb (truthy (body req !! "password"))) eqn:E; [reflexivity |].
  by rewrite findOne_string, Hfind.
Qed.

Lemma app_js_second_registration salt1 salt2 :
  second_registration_conflicts (app_js_register salt1) (app_js_register salt2)
    app_js_conflict.
Proof.
  intros req1 req2 st H201 Hemail.
  destruct (app_js_register_cases bcrypt_hash salt1 req1 st)
    as [(n & m & p & Hreg & Heq) | [_ [H | H]]];
    [| rewrite H in H201; discriminate ..].
  cbv zeta. rewrite Heq. cbn [snd].
  destruct Hreg as (_ & Hm & _ & _ & Hnm & _ & Hfind). rewrite Hm in Hemail.
  destruct (registered_find st n m (bcrypt_hash p 10 salt1)) as [u Hu].
  rewrite (app_js_register_again salt2 req2 _ m u Hemail Hu).
  rewrite (truthy_string m Hnm). simpl negb. rewrite orb_false_r.
  split; [by destruct (_ || _) |]. split; [done |]. split.
  - intros -> ->. reflexivity.
  - exists m. split; [done | by apply registered_one_user].
Qed.

Lemma legacy_second_registration :
  second_registration_conflicts Legacy.post_register Legacy.post_register
    legacy_conflict.
Proof.
  intros req1 req2 st H201 Hemail.
  destruct (legacy_register_cases req1 st)
    as [(n & m & p & Hreg & Heq) | [_ [H | H]]];
    [| rewrite H in H201; discriminate ..].
  cbv zeta. rewrite Heq. cbn [snd].
  destruct Hreg as (_ & Hm & _ & _ & Hnm & _ & Hfind). rewrite Hm in Hemail.
  destruct (registered_find st n m p) as [u Hu].
  rewrite (legacy_register_again req2 _ m u Hemail Hu).
  rewrite (truthy_string m Hnm). simpl negb. rewrite orb_false_r.
  split; [by destruct (_ || _) |]. split; [done |]. split.
  - intros -> ->. reflexivity.
  - exists m. split; [done | by apply registered_one_user].
Qed.

Lemma app_js_register_users_step salt req st :
  users_step st (snd (app_js_register salt req st)).
Proof.
  destruct (app_js_register_cases bcrypt_hash salt req st)
    as [(n & m & p & Hreg & ->) | [-> _]]; [| by left].
  right. exists n, m, (bcrypt_hash p 10 salt).
  split; [apply Hreg | done].
Qed.

Lemma legacy_register_users_step req st :
  users_step st (snd (Legacy.post_register req st)).
Proof.
  destruct (legacy_register_cases req st)
    as [(n & m & p & Hreg & ->) | [-> _]]; [| by left].
  right. exists n, m, p. split; [apply Hreg | done].
Qed.

Lemma app_js_serve_users_step now salt req st :
  users_step st (snd (app_js_serve now salt req st)).
Proof.
  unfold AppJs.serve. destruct (req_method req).
  - destruct (req_path req =? "/locations")%string.
    + left. by rewrite app_js_protected_store.
    + by destruct production; left.
  - destruct (req_path req =? "/register")%string;
      [apply app_js_register_users_step |].
    destruct (req_path req =? "/login")%string; left;
      [by rewrite app_js_login_store | done].
Qed.

Lemma legacy_serve_users_step now req st :
  users_step st (snd (legacy_serve now req st)).
Proof.
  unfold Legacy.serve. destruct (req_method req).
  - destruct production; [by left |].
    destruct (req_path req =? "/locations")%string; [by left |].
    destruct (req_path req =? "/users")%string; [by left |].
    destruct (req_path req =? "/login")%string; left;
      [by rewrite legacy_get_login_store | done].
  - destruct (req_path req =? "/send-location")%string;
      [left; apply legacy_send_location_users |].
    destruct (req_path req =? "/register")%string;
      [apply legacy_register_users_step |].
    destruct (req_path req =? "/login")%string; left;
      [by rewrite legacy_login_store | done].
Qed.

(** C6. In both servers, a second registration with the email of a
    registration that succeeded is answered with 400 (the conflict error
    when its other fields are filled in), the store then holds one user
    with that email, and every sequence of requests keeps the emails of
    the stored users pairwise distinct. *)
Theorem one_user_per_email :
  (forall salt1 salt2,
      second_registration_conflicts (app_js_register salt1)
        (app_js_register salt2) app_js_conflict)
  /\ second_registration_conflicts Legacy.post_register Legacy.post_register
       legacy_conflict
  /\ (forall (trace : list ((nat * string) * Request)) st,
         unique_emails st ->
         unique_emails (run (fun e => app_js_serve (fst e) (snd e)) trace st))
  /\ (forall (trace : list (nat * Request)) st,
         unique_emails st -> unique_emails (run legacy_serve trace st)).
Proof.
  split; [exact app_js_second_registration |].
  split; [exact legacy_second_registration |].
  split.
  - apply run_unique. intros [now salt] req st. apply app_js_serve_users_step.
  - apply run_unique. intros now req st. apply legacy_serve_users_step.
Qed.

End OneUserPerEmail.

Lemma one_user_per_email_witness :
  status (fst (Legacy.post_register alice_request legacy_alice)) = 400
  /\ unique_emails
       (run (Legacy.serve (fun _ => NaN) Fake.compare Fake.static_layer false)
          [(1, alice_request); (2, alice_request)] empty_store).
Proof.
  pose proof (one_user_per_email Fake.hash Fake.compare Fake.encode Fake.check
                (fun _ => NaN) Fake.static_layer (Some "key") false)
    as (_ & Hlegacy & _ & Hrun).
  split.
  - apply (Hlegacy alice_request alice_request empty_store); reflexivity.
  - apply Hrun. apply NoDup_nil_2.
Defined.

(** ** Register, log in, verify *)

Lemma find_has_email_registered st n m h :
  List.find (has_email m) (users st) = None ->
  List.find (has_email m) (users (registered st n m h))
  = Some (mkUser (next_id st) n m h).
Proof.
  intros H. simpl. induction (users st) as [| u l IH]; simpl in *.
  - unfold has_email. simpl. by rewrite String.eqb_refl.
  - destruct (has_email m u); [discriminate | by apply IH].
Qed.

Lemma signing_key_nonempty secret key :
  AppJs.signing_key secret = Some key -> key <> "".
Proof.
  unfold AppJs.signing_key. destruct secret as [k |]; [| discriminate].
  destruct (String.eqb_spec k ""); [discriminate | congruence].
Qed.

Section RoundTrip.

Variable bcrypt_hash : string -> nat -> string -> string.
Variable bcrypt_compare : string -> string -> bool.
Variable jwt_encode : claims -> string -> nat -> nat -> string.
Variable jwt_check : string -> string -> nat -> jwt_error + decoded.
Variable JWT_SECRET : option string.

(** bcrypt accepts a password against its own digest. *)
Hypothesis bcrypt_compare_hash :
  forall data salt, bcrypt_compare data (bcrypt_hash data 10 salt) = true.

(** A token checked under the key that signed it, before it expires,
    yields the claims it was made from. *)
Hypothesis jwt_check_encode :
  forall c key iat exp now,
    key <> "" -> now < exp ->
    jwt_check (jwt_encode c key iat exp) key now
    = inr (Decoded (c_id c) (c_email c) iat exp).

Abbreviation post_register := (AppJs.post_register bcrypt_hash).
Abbreviation post_login :=
  (AppJs.post_login bcrypt_compare jwt_encode JWT_SECRET).
Abbreviation jwt_verify := (AppJs.jwt_verify jwt_check).

Lemma login_registered now req st u p key :
  body req !! "email" = Some (VStr (u_email u)) ->
  body req !! "password" = Some (VStr p) ->
  u_email u <> "" -> p <> "" ->
  List.find (has_email (u_email u)) (users st) = Some u ->
  bcrypt_compare p (u_password u) = true ->
  AppJs.signing_key JWT_SECRET = Some key ->
  post_login now req st
  = (login_response
       (jwt_encode (Claims (u_id u) (u_email u)) key (AppJs.seconds now)
          (AppJs.seconds now + 3600)) u, st).
Proof.
  intros Hm Hp Hnm Hnp Hfind Hcmp Hkey. unfold AppJs.post_login.
  rewrite Hm, Hp, !truthy_string by done. cbv iota. simpl orb. cbv iota.
  rewrite findOne_string, Hfind. simpl. rewrite Hcmp. simpl.
  unfold AppJs.jwt_sign. by rewrite Hkey.
Qed.

(** C4. After a registration answered with 201, a login with the same
    email and password is answered with 200 and a token; verified with
    [jwt.verify] at any instant before the hour has passed, the token
    yields the id and the email of the user that the registration stored.
    The signing secret is taken to be configured. *)
Theorem register_login_verify (salt : string) (now : nat)
  (req_register req_login : Request) (st : Store) (key : string) :
  status (fst (post_register salt req_register st)) = 201 ->
  body req_login !! "email" = body req_register !! "email" ->
  body req_login !! "password" = body req_register !! "password" ->
  AppJs.signing_key JWT_SECRET = Some key ->
  let st1 := snd (post_register salt req_register st) in
  exists u token,
    users st1 = users st ++ [u]
    /\ u_id u = next_id st
    /\ body req_register !! "email" = Some (VStr (u_email u))
    /\ post_login now req_login st1 = (login_response token u, st1)
    /\ forall later,
         AppJs.seconds later < AppJs.seconds now + 3600 ->
         exists d,
           jwt_verify token JWT_SECRET later = inr d
           /\ d_id d = u_id u /\ d_email d = u_email u.
Proof.
  intros H201 Hemail Hpassword Hkey. cbv zeta.
  destruct (app_js_register_cases bcrypt_hash salt req_register st)
    as [(n & m & p & Hreg & Heq) | [_ [H | H]]];
    [| rewrite H in H201; discriminate ..].
  rewrite Heq. cbn [snd].
  destruct Hreg as (_ & Hm & Hp & _ & Hnm & Hnp & Hfind).
  set (u := mkUser (next_id st) n m (bcrypt_hash p 10 salt)).
  exists u, (jwt_encode (Claims (u_id u) (u_email u)) key (AppJs.seconds now)
               (AppJs.seconds now + 3600)).
  split; [done |]. split; [done |]. split; [done |]. split.
  - apply (login_registered now req_login _ u p key); try done.
    + by rewrite Hemail.
    + by rewrite Hpassword.
    + by apply find_has_email_registered.
    + apply bcrypt_compare_hash.
  - intros later Hlater. eexists. split; [| split].
    + unfold AppJs.jwt_verify. rewrite Hkey.
      apply jwt_check_encode; [by eapply signing_key_nonempty | exact Hlater].
    + reflexivity.
    + reflexivity.
Qed.

End RoundTrip.

Lemma register_login_verify_witness :
  exists u token,
    users (snd (AppJs.post_register Fake.hash "salt" alice_request empty_store))
    = users empty_store ++ [u]
    /\ u_id u = next_id empty_store
    /\ body alice_request !! "email" = Some (VStr (u_email u))
    /\ AppJs.post_login Fake.compare Fake.encode (Some "key") 5000 alice_login
         (snd (AppJs.post_register Fake.hash "salt" alice_request empty_store))
       = (login_response token u,
          snd (AppJs.post_register Fake.hash "salt" alice_request empty_store))
    /\ forall later,
         AppJs.seconds later < AppJs.seconds 5000 + 3600 ->
         exists d,
           AppJs.jwt_verify Fake.check token (Some "key") later = inr d
           /\ d_id d = u_id u /\ d_email d = u_email u.
Proof.
  apply (register_login_verify Fake.hash Fake.compare Fake.encode Fake.check
           (Some "key")
           (fun data salt => FakeLaws.compare_hash data 10 salt)
           (fun c key iat exp now _ H => FakeLaws.check_encode c key iat exp now H)
           "salt" 5000 alice_request alice_login empty_store "key");
    reflexivity.
Defined.

(** ** Where credentials are read, and how a password is compared *)

(** C2 fails on the earlier server: the answer of [GET /login] depends on
    the query string, and [POST /login] answers 200 to a password that
    the library's comparison rejects, because it is the stored string. *)
Lemma legacy_credentials :
  ~ query_blind (Legacy.serve (fun _ => NaN) Fake.compare Fake.static_layer false 0)
  /\ (users legacy_alice = [mkUser 0 "alice" "a@x.com" "secret1"]
      /\ body alice_login !! "password" = Some (VStr "secret1")
      /\ status (fst (Legacy.post_login alice_login legacy_alice)) = 200)
  /\ ~ login_by_digest Fake.compare Legacy.post_login.
Proof.
  split; [| split; [by repeat split |]].
  - intros H.
    specialize (H (login_query [("email", "a@x.com"); ("password", "secret1")])
                  ∅ legacy_alice).
    apply (f_equal (fun rs => status (fst rs))) in H.
    vm_compute in H. discriminate H.
  - intros H.
    destruct (H alice_login legacy_alice eq_refl) as (p & u & Hp & _ & Hu & Hc).
    rewrite legacy_alice_users in Hu. apply list_elem_of_singleton in Hu as ->.
    assert (p = "secret1") as -> by (vm_compute in Hp; congruence).
    vm_compute in Hc. discriminate Hc.
Qed.

Section Credentials.

Variable bcrypt_hash : string -> nat -> string -> string.
Variable bcrypt_compare : string -> string -> bool.
Variable jwt_encode : claims -> string -> nat -> nat -> string.
Variable jwt_check : string -> string -> nat -> jwt_error + decoded.
Variable static_layer : string -> Response.
Variable JWT_SECRET : option string.
Variable production : bool.

Abbreviation app_js_serve :=
  (AppJs.serve bcrypt_hash bcrypt_compare jwt_encode jwt_check static_layer
     JWT_SECRET production).
Abbreviation app_js_login :=
  (AppJs.post_login bcrypt_compare jwt_encode JWT_SECRET).

Lemma app_js_query_blind now salt : query_blind (app_js_serve now salt).
Proof.
  intros req q st. unfold AppJs.serve. cbn [req_method req_path set_query].
  destruct (req_method req); [| reflexivity].
  destruct (req_path req =? "/locations")%string; [| reflexivity].
  unfold AppJs.protected, AppJs.authenticateJWT, AppJs.bearer_token.
  cbn [authorization set_query].
  destruct (AppJs.no_token _); [reflexivity |].
  by destruct (AppJs.jwt_verify _ _ _ _).
Qed.

Lemma app_js_login_by_digest now : login_by_digest bcrypt_compare (app_js_login now).
Proof.
  intros req st H. unfold AppJs.post_login in H.
  destruct (negb (truthy (body req !! "email"))
            || negb (truthy (body req !! "password"))) eqn:E;
    [discriminate H |].
  destruct (body req !! "email") as [[| ? | ? | m] |] eqn:Hm; try discriminate H.
  rewrite findOne_string in H.
  destruct (List.find (has_email m) (users st)) as [u |] eqn:Hfind;
    [| discriminate H].
  apply find_has_email_Some in Hfind as [Hin <-].
  destruct (body req !! "password") as [[| ? | ? | p] |] eqn:Hp;
    try discriminate H.
  exists p, u. repeat split; try done.
  destruct (bcrypt_compare p (u_password u)) eqn:Hc; [done |].
  simpl in H. rewrite Hc in H. discriminate H.
Qed.

Lemma legacy_login_plaintext req st :
  status (fst (Legacy.post_login req st)) = 200 ->
  exists u, u ∈ users st
            /\ body req !! "email" = Some (VStr (u_email u))
            /\ body req !! "password" = Some (VStr (u_password u)).
Proof.
  intros H. unfold Legacy.post_login in H.
  destruct (negb (truthy (body req !! "email"))
            || negb (truthy (body req !! "password"))) eqn:E;
    [discriminate H |].
  destruct (body req !! "email") as [[| ? | ? | m] |] eqn:Hm; try discriminate H.
  rewrite findOne_string in H.
  destruct (List.find (has_email m) (users st)) as [u |] eqn:Hfind;
    [| discriminate H].
  apply find_has_email_Some in Hfind as [Hin <-].
  destruct (body req !! "password") as [[| ? | ? | p] |] eqn:Hp;
    try discriminate H.
  exists u. repeat split; try done.
  simpl in H. destruct (String.eqb_spec p (u_password u)) as [-> | Hne];
    [done | discriminate H].
Qed.

(** C2, as amended. In [app.js] no answer depends on the query string,
    and [POST /login] answers 200 only to a password of the request body
    that [bcrypt.compare] accepts against the stored field.  In the
    earlier server [POST /login] answers 200 only to a password that is
    the stored field itself. *)
Theorem credentials_in_body_only :
  (forall now salt, query_blind (app_js_serve now salt))
  /\ (forall now, login_by_digest bcrypt_compare (app_js_login now))
  /\ (forall req st,
         status (fst (Legacy.post_login req st)) = 200 ->
         exists u, u ∈ users st
                   /\ body req !! "email" = Some (VStr (u_email u))
                   /\ body req !! "password" = Some (VStr (u_password u))).
Proof.
  split; [exact app_js_query_blind |].
  split; [exact app_js_login_by_digest | exact legacy_login_plaintext].
Qed.

End Credentials.

Lemma credentials_in_body_only_witness :
  exists p u,
    body alice_login !! "password" = Some (VStr p)
    /\ body alice_login !! "email" = Some (VStr (u_email u))
    /\ u ∈ users app_js_alice
    /\ Fake.compare p (u_password u) = true.
Proof.
  apply (proj1 (proj2 (credentials_in_body_only Fake.hash Fake.compare Fake.encode
                         Fake.check Fake.static_layer (Some "key") false))
           5000 alice_login app_js_alice).
  reflexivity.
Defined.

(** ** Recent locations *)

#[global] Instance newer_first_total : Total newer_first.
Proof. intros a b. unfold newer_first. lia. Qed.

#[global] Instance newer_first_trans : Transitive newer_first.
Proof. intros a b c. unfold newer_first. lia. Qed.

Lemma listRecent_length st : length (listRecent st) = min 10 (length (locations st)).
Proof.
  unfold listRecent. rewrite length_take.
  by rewrite (Permutation_length (merge_sort_Permutation newer_first (locations st))).
Qed.

Lemma listRecent_sorted st : StronglySorted newer_first (listRecent st).
Proof.
  unfold listRecent.
  pose proof (StronglySorted_merge_sort newer_first (locations st)) as H.
  rewrite <- (take_drop 10 (merge_sort newer_first (locations st))) in H.
  by apply StronglySorted_app_1_l in H.
Qed.

Lemma listRecent_stored st l : l ∈ listRecent st -> l ∈ locations st.
Proof.
  unfold listRecent. intros H.
  rewrite <- (merge_sort_Permutation newer_first (locations st)).
  apply elem_of_take in H as (i & Hi & _). by eapply list_elem_of_lookup_2.
Qed.

Lemma sorted_head_newest (l : list Location) (x : Location) :
  (forall y, y ∈ l -> l_createdAt y < l_createdAt x) ->
  head (merge_sort newer_first (l ++ [x])) = Some x.
Proof.
  intros Hnew.
  pose proof (StronglySorted_merge_sort newer_first (l ++ [x])) as Hsorted.
  pose proof (merge_sort_Permutation newer_first (l ++ [x])) as Hperm.
  destruct (merge_sort newer_first (l ++ [x])) as [| h t].
  - apply Permutation_nil_l in Hperm. by destruct l.
  - simpl. f_equal.
    assert (Hh : h ∈ l ++ [x]) by (rewrite <- Hperm; apply list_elem_of_here).
    assert (Hx : x ∈ h :: t) by (rewrite Hperm; apply elem_of_app; right;
                                  apply list_elem_of_here).
    apply elem_of_app in Hh as [Hh | Hh];
      [| by apply list_elem_of_singleton in Hh].
    apply Hnew in Hh.
    apply elem_of_cons in Hx as [-> | Hx]; [done |].
    apply StronglySorted_inv in Hsorted as [_ Hall].
    rewrite Forall_forall in Hall. specialize (Hall x Hx).
    unfold newer_first in Hall. lia.
Qed.

Lemma num_lt_Fin_false (x y : Q) : (y <= x)%Q -> num_lt (Fin x) (Fin y) = false.
Proof.
  intros H. apply not_true_iff_false. rewrite num_lt_Fin. by apply Qle_not_lt.
Qed.

Section RecentLocations.

Variable StringToNumber : string -> number.

Abbreviation post_send_location := (Legacy.post_send_location StringToNumber).

Lemma send_location_saves now req st la lo :
  body req !! "latitude" = Some (VNum (Fin la)) ->
  body req !! "longitude" = Some (VNum (Fin lo)) ->
  (inject_Z (-90) <= la)%Q -> (la <= inject_Z 90)%Q ->
  (inject_Z (-180) <= lo)%Q -> (lo <= inject_Z 180)%Q ->
  post_send_location now req st
  = (respond 200 (JObj [("message", JStr "Location saved successfully");
                        ("location", location_json (mkLocation (next_id st) la lo now))]),
     mkStore (users st) (locations st ++ [mkLocation (next_id st) la lo now])
       (S (next_id st))).
Proof.
  intros Hla Hlo H1 H2 H3 H4. unfold Legacy.post_send_location.
  rewrite Hla, Hlo. unfold Legacy.isFinite, Legacy.to_number, num_of_Z.
  cbn [loose_null orb num_finite negb].
  by rewrite !num_lt_Fin_false.
Qed.

Lemma send_location_locations now req st :
  locations (snd (post_send_location now req st)) = locations st
  \/ exists la lo,
       locations (snd (post_send_location now req st))
       = locations st ++ [mkLocation (next_id st) la lo now].
Proof.
  unfold Legacy.post_send_location.
  repeat match goal with
         | |- context [if ?c then _ else _] => destruct c; [by left |]
         end.
  destruct (Location_save _ _ now st) as [[l st'] | e] eqn:E; [| by left].
  apply Location_save_Ok in E as (la & lo & _ & _ & -> & ->).
  right. by exists la, lo.
Qed.

Lemma run_send_location_times (trace : list (nat * Request)) (now : nat) :
  (forall t req, (t, req) ∈ trace -> t < now) ->
  forall l, l ∈ locations (run post_send_location trace empty_store) ->
            l_createdAt l < now.
Proof.
  induction trace as [| [t req] trace IH] using rev_ind; intros Hbefore l.
  - intros Hl. by apply not_elem_of_nil in Hl.
  - rewrite run_snoc.
    assert (Hprev : forall t' req', (t', req') ∈ trace -> t' < now).
    { intros t' req' Hin. apply (Hbefore t' req'). apply elem_of_app. by left. }
    destruct (send_location_locations t req (run post_send_location trace empty_store))
      as [-> | (la & lo & ->)]; [by apply IH |].
    intros [Hl | Hl]%elem_of_app; [by apply IH |].
    apply list_elem_of_singleton in Hl as ->. simpl.
    apply (Hbefore t req). apply elem_of_app. right. apply list_elem_of_here.
Qed.

(** C7. The listing of locations holds at most 10 samples, later ones
    first, all of them stored; both servers answer [GET /locations] with
    it.  A valid submission made after every stored sample was written is
    saved, and is then the first entry of the listing; the stores that
    submissions made at earlier times lead to are such stores. *)
Theorem recent_locations :
  (forall st,
      length (listRecent st) <= 10
      /\ length (listRecent st) = min 10 (length (locations st))
      /\ StronglySorted newer_first (listRecent st)
      /\ forall l, l ∈ listRecent st -> l ∈ locations st)
  /\ (forall req st,
         Legacy.get_locations req st
         = (respond 200 (JArr (location_json <$> listRecent st)), st)
         /\ AppJs.get_locations req st = Legacy.get_locations req st)
  /\ (forall now req st la lo,
         body req !! "latitude" = Some (VNum (Fin la)) ->
         body req !! "longitude" = Some (VNum (Fin lo)) ->
         (inject_Z (-90) <= la)%Q -> (la <= inject_Z 90)%Q ->
         (inject_Z (-180) <= lo)%Q -> (lo <= inject_Z 180)%Q ->
         (forall l, l ∈ locations st -> l_createdAt l < now) ->
         let sample := mkLocation (next_id st) la lo now in
         let st' := snd (post_send_location now req st) in
         fst (post_send_location now req st)
         = respond 200 (JObj [("message", JStr "Location saved successfully");
                              ("location", location_json sample)])
         /\ locations st' = locations st ++ [sample]
         /\ head (listRecent st') = Some sample
         /\ fst (Legacy.get_locations req st')
            = respond 200 (JArr (location_json <$> sample :: tail (listRecent st'))))
  /\ (forall (trace : list (nat * Request)) now,
         (forall t req, (t, req) ∈ trace -> t < now) ->
         forall l, l ∈ locations (run post_send_location trace empty_store) ->
                   l_createdAt l < now).
Proof.
  split; [| split; [| split; [| exact run_send_location_times]]].
  - intros st. split; [rewrite listRecent_length; lia |].
    split; [apply listRecent_length |].
    split; [apply listRecent_sorted | apply listRecent_stored].
  - done.
  - intros now req st la lo Hla Hlo H1 H2 H3 H4 Hnew. cbv zeta.
    rewrite (send_location_saves now req st la lo) by done. cbn [fst snd locations].
    assert (Hhead : head (listRecent
                      (mkStore (users st)
                         (locations st ++ [mkLocation (next_id st) la lo now])
                         (S (next_id st))))
                    = Some (mkLocation (next_id st) la lo now)).
    { unfold listRecent. cbn [locations].
      pose proof (sorted_head_newest (locations st)
                    (mkLocation (next_id st) la lo now) Hnew) as Hs.
      destruct (merge_sort _ _); [discriminate Hs | exact Hs]. }
    split; [done |]. split; [done |]. split; [exact Hhead |].
    unfold Legacy.get_locations. cbn [fst].
    destruct (listRecent _) as [| h t]; [discriminate Hhead |].
    simpl in Hhead. injection Hhead as ->. reflexivity.
Qed.

End RecentLocations.

Example fifteen_samples_listed :
  l_createdAt <$> listRecent fifteen_samples = [15; 14; 13; 12; 11; 10; 9; 8; 7; 6].
Proof. vm_compute. reflexivity. Qed.

Lemma recent_locations_witness :
  let sample := mkLocation 15 (3777 # 100) (-12241 # 100) 16 in
  let st' := snd (Legacy.post_send_location (fun _ => NaN) 16 san_francisco
                    fifteen_samples) in
  fst (Legacy.post_send_location (fun _ => NaN) 16 san_francisco fifteen_samples)
  = respond 200 (JObj [("message", JStr "Location saved successfully");
                       ("location", location_json sample)])
  /\ locations st' = locations fifteen_samples ++ [sample]
  /\ head (listRecent st') = Some sample
  /\ fst (Legacy.get_locations san_francisco st')
     = respond 200 (JArr (location_json <$> sample :: tail (listRecent st'))).
Proof.
  apply (proj1 (proj2 (proj2 (recent_locations (fun _ => NaN))))
           16 san_francisco fifteen_samples (3777 # 100) (-12241 # 100));
    try reflexivity; try (unfold Qle; simpl; lia).
  intros l Hl.
  assert (Hall : Forall (fun l => l_createdAt l < 16) (locations fifteen_samples))
    by (vm_compute; repeat constructor).
  rewrite Forall_forall in Hall. by apply Hall.
Defined.

Lemma protected_route_witness :
  AppJs.protected Fake.check (Some "key") 3000 AppJs.get_locations
    (locations_request (Some ("Bearer " ++ alice_token)%string)) empty_store
  = AppJs.get_locations
      (set_user (locations_request (Some ("Bearer " ++ alice_token)%string))
         (Decoded 0 "a@x.com" 3 4)) empty_store
  /\ AppJs.protected Fake.check (Some "key") 4000 AppJs.get_locations
       (locations_request (Some ("Bearer " ++ alice_token)%string)) empty_store
     = (forbidden, empty_store)
  /\ AppJs.protected Fake.check (Some "key") 3000 AppJs.get_locations
       (locations_request None) empty_store
     = (unauthorized, empty_store).
Proof.
  split; [| split].
  - apply (proj2 (proj2 (proj2 (protected_route Fake.check (Some "key") 3000
                                  AppJs.get_locations
                                  (locations_request
                                     (Some ("Bearer " ++ alice_token)%string))
                                  empty_store)))
             alice_token (Decoded 0 "a@x.com" 3 4));
      [reflexivity | discriminate | reflexivity].
  - apply (proj1 (proj2 (proj2 (protected_route Fake.check (Some "key") 4000
                                  AppJs.get_locations
                                  (locations_request
                                     (Some ("Bearer " ++ alice_token)%string))
                                  empty_store)))
             alice_token Expired);
      [reflexivity | discriminate | reflexivity].
  - apply (proj1 (protected_route Fake.check (Some "key") 3000 AppJs.get_locations
                    (locations_request None) empty_store)).
    reflexivity.
Defined.

Lemma scheme_is_not_checked_witness :
  AppJs.authenticateJWT Fake.check (Some "key") 3000
    (locations_request (Some ("Basic " ++ alice_token)%string))
  = inr (set_user (locations_request (Some ("Basic " ++ alice_token)%string))
           (Decoded 0 "a@x.com" 3 4))
  /\ AppJs.authenticateJWT Fake.check (Some "key") 3000
       (locations_request (Some "Bearer"))
     = inl unauthorized.
Proof.
  split.
  - apply (proj1 (proj2 (scheme_is_not_checked Fake.check (Some "key") 3000
                    (locations_request (Some ("Basic " ++ alice_token)%string))))
             "Basic" alice_token (Decoded 0 "a@x.com" 3 4));
      [reflexivity | reflexivity | discriminate | reflexivity | reflexivity].
  - apply (proj2 (proj2 (scheme_is_not_checked Fake.check (Some "key") 3000
                    (locations_request (Some "Bearer"))))
             "Bearer"); reflexivity.
Defined.


(** * Further properties of the servers *)

(** ** What [POST /send-location] accepts *)


Section SendLocationExact.

Variable StringToNumber : string -> number.

Abbreviation to_number := (Legacy.to_number StringToNumber).
Abbreviation post_send_location := (Legacy.post_send_location StringToNumber).




(** X2. The checks of [POST /send-location] run in a fixed order: a
    coordinate that is absent or [null] is reported first, with the body
    received; then a latitude that is not finite or out of range,
    whatever the longitude is; a bad longitude is reported only for a
    latitude that passed. *)
Theorem send_location_error_order (now : nat) (req : Request) (st : Store) :
  let latitude := body req !! "latitude" in
  let longitude := body req !! "longitude" in
  (missing latitude \/ missing longitude ->
   post_send_location now req st
   = (respond 400 (JObj [("error", JStr "Missing required fields");
                         ("received", json_of_object (body req))]), st))
  /\ (~ missing latitude -> ~ missing longitude ->
      non_finite StringToNumber latitude \/ outside StringToNumber (-90) 90 latitude ->
      post_send_location now req st
      = (respond 400 (JObj [("error", JStr "Invalid latitude value");
                            ("received", Legacy.json_of_field latitude)]), st))
  /\ (forall la,
         accepted_coordinate StringToNumber (-90) 90 latitude la ->
         ~ missing longitude ->
         non_finite StringToNumber longitude
         \/ outside StringToNumber (-180) 180 longitude ->
         post_send_location now req st
         = (respond 400 (JObj [("error", JStr "Invalid longitude value");
                               ("received", Legacy.json_of_field longitude)]), st)).
Proof.
  cbv zeta. unfold Legacy.post_send_location.
  assert (Hpresent : forall v, ~ missing v -> loose_null v = false).
  { intros [[| | |] |] Hv; try reflexivity; destruct Hv; [by right | by left]. }
  assert (Hbad : forall lo hi v,
             non_finite StringToNumber v \/ outside StringToNumber lo hi v ->
             negb (Legacy.isFinite StringToNumber v)
             || num_lt (to_number v) (num_of_Z lo)
             || num_lt (num_of_Z hi) (to_number v) = true).
  { intros lo hi v [H | H].
    - unfold Legacy.isFinite. by destruct H as [-> | [-> | ->]].
    - destruct H as (q & Hq & Hr). unfold Legacy.isFinite. rewrite Hq.
      cbn [num_finite negb orb]. unfold num_of_Z.
      destruct Hr as [Hr | Hr]; apply num_lt_Fin in Hr; rewrite Hr;
        [reflexivity | apply orb_true_r]. }
  split; [| split].
  - intros [H | H]; apply missing_loose_null in H; rewrite H;
      [reflexivity | by rewrite orb_true_r].
  - intros H1 H2 Hlat. rewrite (Hpresent _ H1), (Hpresent _ H2). cbn [orb].
    by rewrite (Hbad _ _ _ Hlat).
  - intros la (Hn1 & Hq1 & Hlo & Hhi) H2 Hlon.
    rewrite Hn1, (Hpresent _ H2). cbn [orb].
    unfold Legacy.isFinite at 1. rewrite Hq1. unfold num_of_Z at 1 2.
    rewrite !num_lt_Fin_false by done. cbn [num_finite negb orb].
    by rewrite (Hbad _ _ _ Hlon).
Qed.

End SendLocationExact.


Lemma send_location_error_order_witness :
  Legacy.post_send_location (fun _ => NaN) 7 both_out_of_range empty_store
  = (respond 400 (JObj [("error", JStr "Invalid latitude value");
                        ("received", JNum (inject_Z 91))]), empty_store).
Proof.
  apply (proj1 (proj2 (send_location_error_order (fun _ => NaN) 7 both_out_of_range
                         empty_store))).
  - intros [H | H]; discriminate H.
  - intros [H | H]; discriminate H.
  - right. exists (inject_Z 91). split; [reflexivity | right; reflexivity].
Defined.

(** ** The listing holds the most recent samples *)

(** X3. The samples that [GET /locations] leaves out are no more recent
    than any sample it lists, and none is left out while the store holds
    at most 10. *)
Theorem listing_is_most_recent (st : Store) :
  exists rest,
    listRecent st ++ rest ≡ₚ locations st
    /\ (forall a b, a ∈ listRecent st -> b ∈ rest -> l_createdAt b <= l_createdAt a)
    /\ (length (locations st) <= 10 -> rest = []).
Proof.
  exists (drop 10 (merge_sort newer_first (locations st))). unfold listRecent.
  split; [| split].
  - rewrite take_drop. apply merge_sort_Permutation.
  - intros a b Ha Hb.
    pose proof (StronglySorted_merge_sort newer_first (locations st)) as Hsorted.
    rewrite <- (take_drop 10 (merge_sort newer_first (locations st))) in Hsorted.
    exact (StronglySorted_app_1_elem_of _ _ _ a b Hsorted Ha Hb).
  - intros Hlen. apply drop_ge.
    by rewrite (Permutation_length (merge_sort_Permutation newer_first (locations st))).
Qed.

(** ** What the servers do to the store *)

#[global] Instance grows_refl : Reflexive grows.
Proof. intros st. unfold grows. by split; [| split]. Qed.

#[global] Instance grows_trans : Transitive grows.
Proof.
  intros a b c (Hu1 & Hl1 & Hn1) (Hu2 & Hl2 & Hn2).
  split; [by etrans | split; [by etrans | lia]].
Qed.

Lemma grows_registered st n m h : grows st (registered st n m h).
Proof.
  split; [by apply prefix_app_r | split; [done | simpl; lia]].
Qed.

Lemma send_location_store s2n now req st :
  snd (Legacy.post_send_location s2n now req st) = st
  \/ exists la lo,
       Legacy.post_send_location s2n now req st
       = (respond 200 (JObj [("message", JStr "Location saved successfully");
                             ("location",
                              location_json (mkLocation (next_id st) la lo now))]),
          mkStore (users st) (locations st ++ [mkLocation (next_id st) la lo now])
            (S (next_id st))).
Proof.
  unfold Legacy.post_send_location.
  repeat match goal with
         | |- context [if ?c then _ else _] => destruct c; [by left |]
         end.
  destruct (Location_save _ _ now st) as [[l st'] | e] eqn:E; [| by left].
  apply Location_save_Ok in E as (la & lo & _ & _ & -> & ->).
  right. by exists la, lo.
Qed.

Section StoreSteps.

Variable bcrypt_hash : string -> nat -> string -> string.
Variable bcrypt_compare : string -> string -> bool.
Variable jwt_encode : claims -> string -> nat -> nat -> string.
Variable jwt_check : string -> string -> nat -> jwt_error + decoded.
Variable StringToNumber : string -> number.
Variable static_layer : string -> Response.
Variable JWT_SECRET : option string.
Variable production : bool.

Abbreviation app_js_serve :=
  (AppJs.serve bcrypt_hash bcrypt_compare jwt_encode jwt_check static_layer
     JWT_SECRET production).
Abbreviation legacy_serve :=
  (Legacy.serve StringToNumber bcrypt_compare static_layer production).

(** The only requests that change the store of [app.js]. *)
Lemma app_js_serve_store now salt req st :
  snd (app_js_serve now salt req st) = st
  \/ (req_method req = POST /\ req_path req = "/register"
      /\ status (fst (app_js_serve now salt req st)) = 201
      /\ exists n m h, snd (app_js_serve now salt req st) = registered st n m h).
Proof.
  unfold AppJs.serve. destruct (req_method req).
  - left. destruct (req_path req =? "/locations")%string;
      [by rewrite app_js_protected_store | by destruct production].
  - destruct (String.eqb_spec (req_path req) "/register") as [Hp | _].
    + destruct (app_js_register_cases bcrypt_hash salt req st)
        as [(n & m & p & _ & ->) | [-> _]]; [right | by left].
      repeat split; [done |]. by exists n, m, (bcrypt_hash p 10 salt).
    + left. destruct (req_path req =? "/login")%string;
        [by rewrite app_js_login_store | done].
Qed.

(** The only requests that change the store of the earlier server. *)
Lemma legacy_serve_store now req st :
  snd (legacy_serve now req st) = st
  \/ (req_method req = POST /\ req_path req = "/register"
      /\ status (fst (legacy_serve now req st)) = 201
      /\ exists n m h, snd (legacy_serve now req st) = registered st n m h)
  \/ (req_method req = POST /\ req_path req = "/send-location"
      /\ status (fst (legacy_serve now req st)) = 200
      /\ exists la lo,
           snd (legacy_serve now req st)
           = mkStore (users st) (locations st ++ [mkLocation (next_id st) la lo now])
               (S (next_id st))).
Proof.
  unfold Legacy.serve. destruct (req_method req).
  - left. destruct production; [done |].
    destruct (req_path req =? "/locations")%string; [done |].
    destruct (req_path req =? "/users")%string; [done |].
    destruct (req_path req =? "/login")%string;
      [by rewrite legacy_get_login_store | done].
  - destruct (String.eqb_spec (req_path req) "/send-location") as [Hp | _].
    { destruct (send_location_store StringToNumber now req st)
        as [-> | (la & lo & ->)]; [by left | right; right].
      repeat split; [done |]. by exists la, lo. }
    destruct (String.eqb_spec (req_path req) "/register") as [Hp | _].
    { destruct (legacy_register_cases req st)
        as [(n & m & p & _ & ->) | [-> _]]; [right; left | by left].
      repeat split; [done |]. by exists n, m, p. }
    left. destruct (req_path req =? "/login")%string;
      [by rewrite legacy_login_store | done].
Qed.

(** X4. In both servers the store is changed only by a request that is
    answered with success: [POST /register] answered 201 and, in the
    earlier server, [POST /send-location] answered 200.  No GET request
    and no request answered with an error changes anything. *)
Theorem store_changes_only_on_success (now : nat) (salt : string)
  (req : Request) (st : Store) :
  (snd (app_js_serve now salt req st) <> st ->
   req_method req = POST /\ req_path req = "/register"
   /\ status (fst (app_js_serve now salt req st)) = 201)
  /\ (snd (legacy_serve now req st) <> st ->
      req_method req = POST
      /\ ((req_path req = "/register"
           /\ status (fst (legacy_serve now req st)) = 201)
          \/ (req_path req = "/send-location"
              /\ status (fst (legacy_serve now req st)) = 200))).
Proof.
  split; intros Hchanged.
  - destruct (app_js_serve_store now salt req st) as [H | (Hm & Hp & Hs & _)];
      [contradiction | done].
  - destruct (legacy_serve_store now req st)
      as [H | [(Hm & Hp & Hs & _) | (Hm & Hp & Hs & _)]];
      [contradiction | split; [done | by left] | split; [done | by right]].
Qed.

Lemma app_js_serve_grows now salt req st : grows st (snd (app_js_serve now salt req st)).
Proof.
  destruct (app_js_serve_store now salt req st)
    as [-> | (_ & _ & _ & n & m & h & ->)]; [reflexivity | apply grows_registered].
Qed.

Lemma legacy_serve_grows now req st : grows st (snd (legacy_serve now req st)).
Proof.
  destruct (legacy_serve_store now req st)
    as [-> | [(_ & _ & _ & n & m & h & ->) | (_ & _ & _ & la & lo & ->)]];
    [reflexivity | apply grows_registered |].
  split; [done | split; [by apply prefix_app_r | simpl; lia]].
Qed.

Lemma run_grows {E : Type} (serve : E -> Request -> Store -> Response * Store) :
  (forall e req st, grows st (snd (serve e req st))) ->
  forall trace st, grows st (run serve trace st).
Proof.
  intros Hstep trace st.
  induction trace as [| [e req] trace IH] using rev_ind; [reflexivity |].
  rewrite run_snoc. etrans; [exact IH | apply Hstep].
Qed.

(** X5. No request and no sequence of requests removes or alters what is
    stored: the users and the samples of the store before are the first
    users and samples of the store after, in the same order. *)
Theorem store_only_grows :
  (forall (trace : list ((nat * string) * Request)) st,
      grows st (run (fun e => app_js_serve (fst e) (snd e)) trace st))
  /\ (forall (trace : list (nat * Request)) st,
         grows st (run legacy_serve trace st)).
Proof.
  split.
  - apply run_grows. intros [now salt] req st. apply app_js_serve_grows.
  - apply run_grows. intros now req st. apply legacy_serve_grows.
Qed.

End StoreSteps.

Lemma listing_is_most_recent_witness :
  exists rest,
    listRecent fifteen_samples ++ rest ≡ₚ locations fifteen_samples
    /\ (forall a b, a ∈ listRecent fifteen_samples -> b ∈ rest ->
                    l_createdAt b <= l_createdAt a)
    /\ (length (locations fifteen_samples) <= 10 -> rest = []).
Proof. apply (listing_is_most_recent fifteen_samples). Defined.

Lemma store_changes_only_on_success_witness :
  req_method alice_request = POST
  /\ ((req_path alice_request = "/register"
       /\ status (fst (Legacy.serve (fun _ => NaN) Fake.compare Fake.static_layer
                         false 1 alice_request empty_store)) = 201)
      \/ (req_path alice_request = "/send-location"
          /\ status (fst (Legacy.serve (fun _ => NaN) Fake.compare Fake.static_layer
                            false 1 alice_request empty_store)) = 200)).
Proof.
  apply (proj2 (store_changes_only_on_success Fake.hash Fake.compare Fake.encode
                  Fake.check (fun _ => NaN) Fake.static_layer (Some "key") false
                  1 "salt" alice_request empty_store)).
  intros H. apply (f_equal next_id) in H. vm_compute in H. discriminate H.
Defined.

(** ** Registration and login, case by case *)

Section Outcomes.

Variable bcrypt_hash : string -> nat -> string -> string.
Variable bcrypt_compare : string -> string -> bool.
Variable jwt_encode : claims -> string -> nat -> nat -> string.
Variable JWT_SECRET : option string.

Abbreviation app_js_register := (AppJs.post_register bcrypt_hash).
Abbreviation app_js_login := (AppJs.post_login bcrypt_compare jwt_encode JWT_SECRET).



Lemma app_js_login_strings now req st e p :
  body req !! "email" = Some (VStr e) -> body req !! "password" = Some (VStr p) ->
  e <> "" -> p <> "" ->
  app_js_login now req st
  = match found e st with
    | None => (respond 404 (JObj [("error", JStr "User not found.")]), st)
    | Some u =>
        if bcrypt_compare p (u_password u) then
          match AppJs.signing_key JWT_SECRET with
          | Some key =>
              (login_response
                 (jwt_encode (Claims (u_id u) (u_email u)) key
                    (AppJs.seconds now) (AppJs.seconds now + 3600)) u, st)
          | None =>
              (respond 500
                 (JObj [("error", JStr "Server error");
                        ("message", JStr "secretOrPrivateKey must have a value")]), st)
          end
        else (respond 401 (JObj [("error", JStr "Invalid email or password.")]), st)
    end.
Proof.
  intros He Hp Hne Hnp. unfold AppJs.post_login, found.
  rewrite He, Hp, !truthy_string by done. cbv iota. simpl orb. cbv iota.
  rewrite findOne_string.
  destruct (List.find (has_email e) (users st)) as [u |]; [| reflexivity].
  simpl. destruct (bcrypt_compare p (u_password u)); [| reflexivity].
  simpl. unfold AppJs.jwt_sign.
  by destruct (AppJs.signing_key JWT_SECRET).
Qed.

Lemma app_js_login_incomplete now req st :
  truthy (body req !! "email") = false \/ truthy (body req !! "password") = false ->
  app_js_login now req st
  = (respond 400 (JObj [("error", JStr "Email and password are required.")]), st).
Proof.
  intros H. unfold AppJs.post_login.
  assert (negb (truthy (body req !! "email"))
          || negb (truthy (body req !! "password")) = true) as ->
    by (destruct H as [-> | ->]; [done | apply orb_true_r]).
  reflexivity.
Qed.

(** X7. The answers of [POST /login] in [app.js], for an email and a
    password that are non-empty strings: 404 when no user has the email;
    401 when [bcrypt.compare] rejects the password against the stored
    field; 500 when it accepts it but no signing secret is configured;
    otherwise 200 with a token for the id and email of the user, valid
    for one hour.  An email or password that is absent or empty gives 400.
    Only the 200 answer carries a token. *)
Theorem app_js_login_outcomes (now : nat) (req : Request) (st : Store) :
  (truthy (body req !! "email") = false \/ truthy (body req !! "password") = false ->
   app_js_login now req st
   = (respond 400 (JObj [("error", JStr "Email and password are required.")]), st))
  /\ (forall e p,
         body req !! "email" = Some (VStr e) -> body req !! "password" = Some (VStr p) ->
         e <> "" -> p <> "" ->
         app_js_login now req st
         = match found e st with
           | None => (respond 404 (JObj [("error", JStr "User not found.")]), st)
           | Some u =>
               if bcrypt_compare p (u_password u) then
                 match AppJs.signing_key JWT_SECRET with
                 | Some key =>
                     (login_response
                        (jwt_encode (Claims (u_id u) (u_email u)) key
                           (AppJs.seconds now) (AppJs.seconds now + 3600)) u, st)
                 | None =>
                     (respond 500
                        (JObj [("error", JStr "Server error");
                               ("message",
                                JStr "secretOrPrivateKey must have a value")]), st)
                 end
               else
                 (respond 401 (JObj [("error", JStr "Invalid email or password.")]), st)
           end)
  /\ (status (fst (app_js_login now req st)) <> 200 ->
      json_field "token" (payload (fst (app_js_login now req st))) = None).
Proof.
  split; [| split].
  - apply app_js_login_incomplete.
  - apply app_js_login_strings.
  - unfold AppJs.post_login, User_findOne, compare_strings, AppJs.jwt_sign,
      cast_string, mbind, result_bind.
    by_cases; simpl; intros H; try reflexivity; by destruct H.
Qed.

Lemma legacy_login_incomplete (req : Request) (st : Store) :
  truthy (body req !! "email") = false \/ truthy (body req !! "password") = false ->
  Legacy.post_login req st
  = (respond 400 (JObj [("error", JStr "Email and password are required")]), st).
Proof.
  intros H. unfold Legacy.post_login.
  assert (negb (truthy (body req !! "email"))
          || negb (truthy (body req !! "password")) = true) as ->
    by (destruct H as [-> | ->]; [done | apply orb_true_r]).
  reflexivity.
Qed.

Lemma legacy_login_strings (req : Request) (st : Store) e p :
  body req !! "email" = Some (VStr e) -> body req !! "password" = Some (VStr p) ->
  e <> "" -> p <> "" ->
  Legacy.post_login req st
  = match found e st with
    | None => (respond 404 (JObj [("error", JStr "User not found")]), st)
    | Some u =>
        if String.eqb p (u_password u) then (Legacy.login_successful u, st)
        else (respond 401 (JObj [("error", JStr "Invalid email or password")]), st)
    end.
Proof.
  intros He Hp Hne Hnp. unfold Legacy.post_login, found.
  rewrite He, Hp, !truthy_string by done. cbv iota. simpl orb. cbv iota.
  rewrite findOne_string.
  destruct (List.find (has_email e) (users st)) as [u |]; [| reflexivity].
  simpl. by destruct (String.eqb p (u_password u)).
Qed.

(** X8. The answers of [POST /login] in the earlier server, for an email
    and a password that are non-empty strings: 404 when no user has the
    email, 200 when the password is the stored field of the first user
    with the email, character for character, and 401 otherwise; an
    email or password that is absent or empty gives 400. *)
Theorem legacy_login_outcomes (req : Request) (st : Store) :
  (truthy (body req !! "email") = false \/ truthy (body req !! "password") = false ->
   Legacy.post_login req st
   = (respond 400 (JObj [("error", JStr "Email and password are required")]), st))
  /\ (forall e p,
         body req !! "email" = Some (VStr e) -> body req !! "password" = Some (VStr p) ->
         e <> "" -> p <> "" ->
         Legacy.post_login req st
         = match found e st with
           | None => (respond 404 (JObj [("error", JStr "User not found")]), st)
           | Some u =>
               if String.eqb p (u_password u) then (Legacy.login_successful u, st)
               else
                 (respond 401 (JObj [("error", JStr "Invalid email or password")]), st)
           end).
Proof.
  split.
  - apply legacy_login_incomplete.
  - intros e p. apply legacy_login_strings.
Qed.

End Outcomes.


Lemma app_js_login_outcomes_witness :
  AppJs.post_login Fake.compare Fake.encode (Some "key") 5000 wrong_login app_js_alice
  = (respond 401 (JObj [("error", JStr "Invalid email or password.")]), app_js_alice).
Proof.
  apply (proj1 (proj2 (app_js_login_outcomes Fake.compare Fake.encode (Some "key")
                         5000 wrong_login app_js_alice))
           "a@x.com" "wrong"); try reflexivity; discriminate.
Defined.

Lemma legacy_login_outcomes_witness :
  Legacy.post_login wrong_login legacy_alice
  = (respond 401 (JObj [("error", JStr "Invalid email or password")]), legacy_alice).
Proof.
  apply (proj2 (legacy_login_outcomes wrong_login legacy_alice) "a@x.com" "wrong");
    try reflexivity; discriminate.
Defined.

(** ** A server without a signing secret *)

Section NoSecret.

Variable bcrypt_compare : string -> string -> bool.
Variable jwt_encode : claims -> string -> nat -> nat -> string.
Variable jwt_check : string -> string -> nat -> jwt_error + decoded.
Variable JWT_SECRET : option string.

(** X9. When [JWT_SECRET] is not set, or is empty, no login is answered
    200, and a protected route answers 401 or 403 to every request,
    whatever token it carries: its handler never runs. *)
Theorem no_secret_no_access :
  JWT_SECRET = None \/ JWT_SECRET = Some "" ->
  (forall now req st,
      status (fst (AppJs.post_login bcrypt_compare jwt_encode JWT_SECRET now req st))
      <> 200)
  /\ (forall now handler req st,
         AppJs.protected jwt_check JWT_SECRET now handler req st = (unauthorized, st)
         \/ AppJs.protected jwt_check JWT_SECRET now handler req st = (forbidden, st)).
Proof.
  intros Hsecret.
  assert (Hkey : AppJs.signing_key JWT_SECRET = None)
    by (destruct Hsecret as [-> | ->]; reflexivity).
  split; [intros now req st | intros now handler req st].
  - unfold AppJs.post_login, User_findOne, compare_strings, AppJs.jwt_sign,
      cast_string, mbind, result_bind.
    rewrite Hkey. by_cases; simpl; lia.
  - unfold AppJs.protected, AppJs.authenticateJWT, AppJs.jwt_verify.
    rewrite Hkey. destruct (AppJs.no_token _); [by left | by right].
Qed.

End NoSecret.

Lemma no_secret_no_access_witness :
  status (fst (AppJs.post_login Fake.compare Fake.encode (Some "") 5000 alice_login
                 app_js_alice)) <> 200
  /\ (AppJs.protected Fake.check (Some "") 3000 AppJs.get_locations
        (locations_request (Some ("Bearer " ++ alice_token)%string)) app_js_alice
      = (unauthorized, app_js_alice)
      \/ AppJs.protected Fake.check (Some "") 3000 AppJs.get_locations
           (locations_request (Some ("Bearer " ++ alice_token)%string)) app_js_alice
         = (forbidden, app_js_alice)).
Proof.
  pose proof (no_secret_no_access Fake.compare Fake.encode Fake.check (Some "")
                (or_intror eq_refl)) as [Hlogin Hroute].
  split; [apply Hlogin | apply Hroute].
Defined.

(** ** Splitting the header *)

Lemma split_on_nonempty sep s : split_on sep s <> [].
Proof.
  destruct s as [| c r]; simpl; [done |].
  destruct (Ascii.eqb c sep); [done |]. by destruct (split_on sep r).
Qed.

Lemma concat_cons sep w ws :
  ws <> [] ->
  String.concat sep (w :: ws) = (w ++ sep ++ String.concat sep ws)%string.
Proof. by destruct ws. Qed.

(** X10. [split(" ")] loses nothing: joining the components with a space
    gives the header back, and no component holds a space. *)
Theorem split_join (s : string) :
  String.concat " " (split_on " " s) = s
  /\ Forall (fun w => contains " " w = false) (split_on " " s).
Proof.
  induction s as [| c r [IHjoin IHwords]]; [by repeat constructor |].
  simpl. destruct (Ascii.eqb_spec c " ") as [-> | Hc].
  - split; [| by constructor].
    rewrite concat_cons by apply split_on_nonempty. simpl. by rewrite IHjoin.
  - pose proof (split_on_nonempty " " r) as Hne.
    destruct (split_on " " r) as [| w ws]; [done |].
    apply Forall_cons in IHwords as [Hw Hws]. split.
    + destruct ws as [| w' ws]; [simpl in *; by rewrite IHjoin |].
      rewrite concat_cons in IHjoin |- * by done. by rewrite <- IHjoin.
    + constructor; [| done]. simpl. rewrite Hw.
      by apply Ascii.eqb_neq in Hc as ->.
Qed.

Lemma split_on_three sep a t r :
  contains sep a = false -> contains sep t = false ->
  split_on sep (a ++ String sep (t ++ String sep r)) = a :: t :: split_on sep r.
Proof. intros Ha Ht. by rewrite !split_on_app. Qed.

Section ExtraComponents.

Variable jwt_check : string -> string -> nat -> jwt_error + decoded.
Variable JWT_SECRET : option string.

(** X11. Only the second component of the header counts: what follows a
    second space is ignored, so a header "scheme token more words" is
    treated as "scheme token". *)
Theorem components_after_token_ignored (now : nat) (req : Request)
  (scheme tok more : string) :
  contains " " scheme = false -> contains " " tok = false ->
  authorization req = Some (scheme ++ " " ++ tok ++ " " ++ more)%string ->
  AppJs.bearer_token req = Some tok
  /\ AppJs.authenticateJWT jwt_check JWT_SECRET now req
     = if String.eqb tok "" then inl unauthorized
       else match AppJs.jwt_verify jwt_check tok JWT_SECRET now with
            | inl _ => inl forbidden
            | inr d => inr (set_user req d)
            end.
Proof.
  intros Hs Ht Hh.
  assert (Htok : AppJs.bearer_token req = Some tok).
  { unfold AppJs.bearer_token. rewrite Hh. simpl.
    change (scheme ++ " " ++ tok ++ " " ++ more)%string
      with (scheme ++ String " " (tok ++ String " " more))%string.
    by rewrite split_on_three. }
  split; [done |].
  destruct (String.eqb_spec tok "") as [-> | Hne].
  - apply authenticateJWT_no_token. by rewrite Htok.
  - by apply authenticateJWT_token.
Qed.

End ExtraComponents.

Lemma components_after_token_ignored_witness :
  AppJs.bearer_token
    (locations_request (Some ("Bearer " ++ alice_token ++ " and more")%string))
  = Some alice_token
  /\ AppJs.authenticateJWT Fake.check (Some "key") 3000
       (locations_request (Some ("Bearer " ++ alice_token ++ " and more")%string))
     = if String.eqb alice_token "" then inl unauthorized
       else match AppJs.jwt_verify Fake.check alice_token (Some "key") 3000 with
            | inl _ => inl forbidden
            | inr d =>
                inr (set_user
                       (locations_request
                          (Some ("Bearer " ++ alice_token ++ " and more")%string)) d)
            end.
Proof.
  apply (components_after_token_ignored Fake.check (Some "key") 3000
           (locations_request (Some ("Bearer " ++ alice_token ++ " and more")%string))
           "Bearer" alice_token "and more"); reflexivity.
Defined.

(** ** From a login to the protected route *)

Section LoginThenLocations.

Variable bcrypt_hash : string -> nat -> string -> string.
Variable bcrypt_compare : string -> string -> bool.
Variable jwt_encode : claims -> string -> nat -> nat -> string.
Variable jwt_check : string -> string -> nat -> jwt_error + decoded.
Variable static_layer : string -> Response.
Variable JWT_SECRET : option string.
Variable production : bool.

(** A token checked under the key that signed it yields its claims before
    it expires, and is refused as expired from then on. *)
Hypothesis jwt_check_encode :
  forall c key iat exp now,
    key <> "" -> now < exp ->
    jwt_check (jwt_encode c key iat exp) key now
    = inr (Decoded (c_id c) (c_email c) iat exp).
Hypothesis jwt_check_expired :
  forall c key iat exp now,
    key <> "" -> exp <= now ->
    jwt_check (jwt_encode c key iat exp) key now = inl Expired.

Abbreviation serve :=
  (AppJs.serve bcrypt_hash bcrypt_compare jwt_encode jwt_check static_layer
     JWT_SECRET production).

(** X12. The token of a login opens [GET /locations]: sent as
    "Bearer <token>" within the hour, the request is answered 200 with
    the listing, in development and in production; from the hour on it
    is answered 403.  The token is taken to hold no space and not to be
    empty, as a JWT is. *)
Theorem login_then_locations (now later : nat) (salt : string)
  (req : Request) (st : Store) (u : User) (p key : string) :
  body req !! "email" = Some (VStr (u_email u)) ->
  body req !! "password" = Some (VStr p) ->
  u_email u <> "" -> p <> "" ->
  found (u_email u) st = Some u ->
  bcrypt_compare p (u_password u) = true ->
  AppJs.signing_key JWT_SECRET = Some key ->
  let token := jwt_encode (Claims (u_id u) (u_email u)) key (AppJs.seconds now)
                 (AppJs.seconds now + 3600) in
  contains " " token = false -> token <> "" ->
  serve now salt (mkRequest POST "/login" None ∅ (body req) None) st
  = (login_response token u, st)
  /\ (AppJs.seconds later < AppJs.seconds now + 3600 ->
      serve later salt (locations_request (Some ("Bearer " ++ token)%string)) st
      = (respond 200 (JArr (location_json <$> listRecent st)), st))
  /\ (AppJs.seconds now + 3600 <= AppJs.seconds later ->
      serve later salt (locations_request (Some ("Bearer " ++ token)%string)) st
      = (forbidden, st)).
Proof.
  intros He Hp Hne Hnp Hfound Hcmp Hkey token Hspace Htoken.
  assert (Hbearer : AppJs.bearer_token
                      (locations_request (Some ("Bearer " ++ token)%string))
                    = Some token).
  { change (split_on " " ("Bearer" ++ " " ++ token)%string !! 1 = Some token).
    by apply split_on_scheme_token. }
  pose proof (signing_key_nonempty _ _ Hkey) as Hk.
  split; [| split].
  - unfold AppJs.serve. simpl.
    by apply (login_registered bcrypt_compare jwt_encode JWT_SECRET now _ st u p key).
  - intros Hlater. unfold AppJs.serve, AppJs.protected. simpl.
    rewrite (authenticateJWT_token _ _ later _ token Hbearer Htoken).
    unfold AppJs.jwt_verify, token. rewrite Hkey.
    by rewrite jwt_check_encode.
  - intros Hlater. unfold AppJs.serve, AppJs.protected. simpl.
    rewrite (authenticateJWT_token _ _ later _ token Hbearer Htoken).
    unfold AppJs.jwt_verify, token. rewrite Hkey.
    by rewrite jwt_check_expired.
Qed.

End LoginThenLocations.

Lemma fake_check_expired c key iat exp now :
  exp <= now -> Fake.check (Fake.encode c key iat exp) key now = inl Expired.
Proof.
  intros H. unfold Fake.check, Fake.encode.
  rewrite !FakeLaws.read_unary_unary, FakeLaws.strip_prefix_app.
  destruct (Nat.leb_spec exp now); [done | lia].
Qed.

Lemma login_then_locations_witness :
  AppJs.serve Fake.hash Fake.compare Fake.encode Fake.check Fake.static_layer
    (Some "key") false 4000 "salt"
    (locations_request
       (Some ("Bearer " ++ Fake.encode (Claims 0 "a@x.com") "key" 3 3603)%string))
    app_js_alice
  = (respond 200 (JArr (location_json <$> listRecent app_js_alice)), app_js_alice).
Proof.
  refine (proj1 (proj2 (login_then_locations Fake.hash Fake.compare Fake.encode
                          Fake.check Fake.static_layer (Some "key") false
                          (fun c key iat exp now _ H =>
                             FakeLaws.check_encode c key iat exp now H)
                          (fun c key iat exp now _ H =>
                             fake_check_expired c key iat exp now H)
                          3000 4000 "salt" alice_login app_js_alice
                          (mkUser 0 "alice" "a@x.com" (Fake.hash "secret1" 10 "salt"))
                          "secret1" "key" _ _ _ _ _ _ _ _ _)) _);
    try reflexivity; try discriminate.
  vm_compute. lia.
Defined.

(** ** Which route answers *)

Section Routes.

Variable bcrypt_hash : string -> nat -> string -> string.
Variable bcrypt_compare : string -> string -> bool.
Variable jwt_encode : claims -> string -> nat -> nat -> string.
Variable jwt_check : string -> string -> nat -> jwt_error + decoded.
Variable StringToNumber : string -> number.
Variable static_layer : string -> Response.
Variable JWT_SECRET : option string.


End Routes.


(** * Properties of the client pages *)

Lemma error_message_truthy (r : reply) (fallback : string) :
  fallback <> "" -> json_truthy (error_message r fallback) = true.
Proof.
  intros H. unfold error_message.
  assert (Hf : json_truthy (JStr fallback) = true)
    by (simpl; by apply negb_true_iff, String.eqb_neq).
  destruct r as [| resp]; [done |].
  destruct (json_field "error" (payload resp)) as [e |]; [| done].
  by destruct (json_truthy e) eqn:He.
Qed.

Lemma error_message_reply (resp : Response) (fallback message : string) :
  json_field "error" (payload resp) = Some (JStr message) -> message <> "" ->
  error_message (Reply resp) fallback = JStr message.
Proof.
  intros H Hne. unfold error_message. rewrite H. simpl.
  by apply String.eqb_neq in Hne as ->.
Qed.

(** ** The signup page *)

Lemma signup_cases (post : Request -> reply) (s : SignupPage.State) :
  let answer := post (post_json "/register" (SignupPage.formData s)) in
  (answer = NoReply
   /\ SignupPage.handleSubmit post s
      = SignupPage.mkState (SignupPage.formData s)
          (Some (JStr "Something went wrong")) None false)
  \/ (exists r,
        answer = Reply r /\ resolved r = true /\ payload r <> JNull
        /\ SignupPage.handleSubmit post s
           = SignupPage.mkState SignupPage.empty_form None
               (json_field "message" (payload r)) false)
  \/ (exists r,
        answer = Reply r /\ (resolved r = false \/ payload r = JNull)
        /\ exists e,
             json_truthy e = true
             /\ SignupPage.handleSubmit post s
                = SignupPage.mkState (SignupPage.formData s) (Some e) None false).
Proof.
  cbv zeta. unfold SignupPage.handleSubmit.
  destruct (post (post_json "/register" (SignupPage.formData s))) as [| r];
    [by left | right].
  destruct (resolved r) eqn:Hres.
  - destruct (payload r) eqn:Hpay;
      try (left; exists r; by rewrite Hpay).
    right. exists r. split; [done |]. split; [by right |].
    by exists (JStr "Something went wrong").
  - right. exists r. split; [done |]. split; [by left |].
    exists (error_message (Reply r) "Something went wrong").
    split; [by apply error_message_truthy | done].
Qed.

(** X14. When [handleSubmit] has finished the page is no longer loading.
    It shows no error exactly when the server answered with a status from
    200 to 299 and a body that is not [null]; the form is then cleared.
    Otherwise the form keeps what was typed, no success is shown, and the
    error shown is never empty: without a usable [error] in the answer,
    or without an answer, it is "Something went wrong". *)
Theorem signup_page_outcome (post : Request -> reply) (s : SignupPage.State) :
  let s' := SignupPage.handleSubmit post s in
  SignupPage.loading s' = false
  /\ (SignupPage.error s' = None <->
      exists response,
        post (post_json "/register" (SignupPage.formData s)) = Reply response
        /\ resolved response = true /\ payload response <> JNull)
  /\ (SignupPage.error s' = None ->
      SignupPage.formData s' = SignupPage.empty_form)
  /\ (forall e, SignupPage.error s' = Some e ->
                json_truthy e = true
                /\ SignupPage.success s' = None
                /\ SignupPage.formData s' = SignupPage.formData s)
  /\ (post (post_json "/register" (SignupPage.formData s)) = NoReply ->
      SignupPage.error s' = Some (JStr "Something went wrong")).
Proof.
  cbv zeta.
  destruct (signup_cases post s)
    as [(Hpost & ->) | [(r & Hpost & Hres & Hpay & ->) | (r & Hpost & Hbad & e & He & ->)]];
    simpl.
  - split; [done |]. split; [| split; [done |]; split; [| done]].
    + split; [done |]. intros (r & Hr & _). congruence.
    + by intros e [= <-].
  - split; [done |]. split; [| split; [done |]; split; [done | congruence]].
    split; [intros _; by exists r | done].
  - split; [done |]. split; [| split; [done |]; split; [| congruence]].
    + split; [done |]. intros (r' & Hr & Hres & Hpay).
      assert (r' = r) as -> by congruence. destruct Hbad; congruence.
    + by intros e' [= <-].
Qed.

Lemma signup_page_outcome_witness :
  json_truthy (JStr "Email is already registered") = true
  /\ SignupPage.success
       (SignupPage.handleSubmit (answering Legacy.post_register legacy_alice)
          (typed "alice" "a@x.com" "other")) = None
  /\ SignupPage.formData
       (SignupPage.handleSubmit (answering Legacy.post_register legacy_alice)
          (typed "alice" "a@x.com" "other"))
     = SignupPage.formData (typed "alice" "a@x.com" "other").
Proof.
  apply (proj1 (proj2 (proj2 (proj2
           (signup_page_outcome (answering Legacy.post_register legacy_alice)
              (typed "alice" "a@x.com" "other")))))).
  reflexivity.
Defined.

Lemma post_json_field path data k :
  body (post_json path data) !! k = VStr <$> data !! k.
Proof. unfold post_json. simpl. apply lookup_fmap. Qed.

Lemma typed_fields n m p :
  SignupPage.formData (typed n m p) !! "username" = Some n
  /\ SignupPage.formData (typed n m p) !! "email" = Some m
  /\ SignupPage.formData (typed n m p) !! "password" = Some p.
Proof.
  unfold typed, SignupPage.handleChange. simpl.
  repeat split;
    repeat first [rewrite lookup_insert_eq | rewrite lookup_insert_ne by done];
    done.
Qed.

Lemma typed_registration n m p st :
  n <> "" -> m <> "" -> p <> "" -> found m st = None ->
  registration (post_json "/register" (SignupPage.formData (typed n m p))) st n m p.
Proof.
  intros Hn Hm Hp Hfound. destruct (typed_fields n m p) as (H1 & H2 & H3).
  unfold registration. rewrite !post_json_field, H1, H2, H3. by repeat split.
Qed.

Section PagesAndServers.

Variable bcrypt_hash : string -> nat -> string -> string.
Variable bcrypt_compare : string -> string -> bool.
Variable jwt_encode : claims -> string -> nat -> nat -> string.
Variable jwt_check : string -> string -> nat -> jwt_error + decoded.
Variable StringToNumber : string -> number.
Variable static_layer : string -> Response.
Variable JWT_SECRET : option string.
Variable production : bool.

Abbreviation app_js_serve :=
  (AppJs.serve bcrypt_hash bcrypt_compare jwt_encode jwt_check static_layer
     JWT_SECRET production).
Abbreviation legacy_serve :=
  (Legacy.serve StringToNumber bcrypt_compare static_layer production).

Lemma app_js_serve_register now salt data st :
  app_js_serve now salt (post_json "/register" data) st
  = AppJs.post_register bcrypt_hash salt (post_json "/register" data) st.
Proof. reflexivity. Qed.

Lemma legacy_serve_register now data st :
  legacy_serve now (post_json "/register" data) st
  = Legacy.post_register (post_json "/register" data) st.
Proof. reflexivity. Qed.

Lemma app_js_serve_login now salt data st :
  app_js_serve now salt (post_json "/login" data) st
  = AppJs.post_login bcrypt_compare jwt_encode JWT_SECRET now
      (post_json "/login" data) st.
Proof. reflexivity. Qed.

Lemma legacy_serve_login now data st :
  legacy_serve now (post_json "/login" data) st
  = Legacy.post_login (post_json "/login" data) st.
Proof. reflexivity. Qed.

(** X15. The signup page against the servers, with three fields typed
    that are not empty.  When no stored user has the email, the page
    shows the success message of the server and an empty form, and the
    server has stored the user: with the digest of the password in
    [app.js], with the password as typed in the earlier server.  When a
    stored user has the email, the page shows the server's "Email is
    already registered" and the store is as before. *)
Theorem signup_against_servers (now : nat) (salt : string) (n m p : string)
  (st : Store) :
  n <> "" -> m <> "" -> p <> "" ->
  let request := post_json "/register" (SignupPage.formData (typed n m p)) in
  (found m st = None ->
   SignupPage.handleSubmit (answering (app_js_serve now salt) st) (typed n m p)
   = SignupPage.mkState SignupPage.empty_form None
       (Some (JStr "User registered successfully.")) false
   /\ snd (app_js_serve now salt request st)
      = registered st n m (bcrypt_hash p 10 salt)
   /\ SignupPage.handleSubmit (answering (legacy_serve now) st) (typed n m p)
      = SignupPage.mkState SignupPage.empty_form None
          (Some (JStr "User registered successfully")) false
   /\ snd (legacy_serve now request st) = registered st n m p)
  /\ (forall u,
         found m st = Some u ->
         SignupPage.handleSubmit (answering (app_js_serve now salt) st) (typed n m p)
         = SignupPage.mkState (SignupPage.formData (typed n m p))
             (Some (JStr "Email is already registered.")) None false
         /\ snd (app_js_serve now salt request st) = st
         /\ SignupPage.handleSubmit (answering (legacy_serve now) st) (typed n m p)
            = SignupPage.mkState (SignupPage.formData (typed n m p))
                (Some (JStr "Email is already registered")) None false
         /\ snd (legacy_serve now request st) = st).
Proof.
  intros Hn Hm Hp. cbv zeta. split.
  - intros Hfound.
    pose proof (typed_registration n m p st Hn Hm Hp Hfound) as Hreg.
    unfold SignupPage.handleSubmit, answering.
    rewrite app_js_serve_register, legacy_serve_register.
    rewrite (app_js_register_ok bcrypt_hash salt _ st n m p Hreg).
    by rewrite (legacy_register_ok _ st n m p Hreg).
  - intros u Hfound.
    destruct (typed_fields n m p) as (H1 & H2 & H3).
    assert (Hbody : forall k v, SignupPage.formData (typed n m p) !! k = Some v ->
                      body (post_json "/register" (SignupPage.formData (typed n m p)))
                      !! k = Some (VStr v))
      by (intros k v Hk; by rewrite post_json_field, Hk).
    unfold SignupPage.handleSubmit, answering.
    rewrite app_js_serve_register, legacy_serve_register.
    rewrite (app_js_register_again bcrypt_hash salt _ st m u (Hbody _ _ H2) Hfound).
    rewrite (legacy_register_again _ st m u (Hbody _ _ H2) Hfound).
    rewrite (Hbody _ _ H1), (Hbody _ _ H3), !truthy_string by done.
    done.
Qed.

Lemma login_body (e p : string) :
  body (post_json "/login" {[ "email" := e; "password" := p ]}) !! "email"
  = Some (VStr e)
  /\ body (post_json "/login" {[ "email" := e; "password" := p ]}) !! "password"
     = Some (VStr p).
Proof.
  rewrite !post_json_field. split.
  - by rewrite lookup_insert_eq.
  - by rewrite lookup_insert_ne, lookup_singleton_eq.
Qed.

Lemma app_js_login_page (now : nat) (salt : string) (e p : string) (st : Store) :
  e <> "" -> p <> "" ->
  LoginPage.handleLogin (answering (app_js_serve now salt) st) (credentials e p)
  = match found e st with
    | None =>
        LoginPage.mkState e p (Some (JStr "User not found.")) false None None
    | Some u =>
        if bcrypt_compare p (u_password u) then
          match AppJs.signing_key JWT_SECRET with
          | Some _ =>
              LoginPage.mkState e p None false (Some "Login successful!")
                (Some "/dashboard")
          | None =>
              LoginPage.mkState e p (Some (JStr "Server error")) false None None
          end
        else
          LoginPage.mkState e p (Some (JStr "Invalid email or password.")) false
            None None
    end.
Proof.
  intros He Hp. destruct (login_body e p) as [Hbe Hbp].
  unfold LoginPage.handleLogin, answering, credentials. simpl LoginPage.email.
  simpl LoginPage.password. rewrite app_js_serve_login.
  rewrite (app_js_login_strings bcrypt_compare jwt_encode JWT_SECRET now _ st e p
             Hbe Hbp He Hp).
  destruct (found e st) as [u |]; [| reflexivity].
  destruct (bcrypt_compare p (u_password u)); [| reflexivity].
  by destruct (AppJs.signing_key JWT_SECRET).
Qed.

(** X16. The login page against the servers, with an email and a password
    typed that are not empty: it shows "User not found" when no stored
    user has the email, "Invalid email or password" when the server
    rejects the password, and "Server error" when [app.js] has no signing
    secret; when the server accepts the login it raises the alert and
    goes to [/dashboard], showing no error. *)
Theorem login_page_against_servers (now : nat) (salt : string) (e p : string)
  (st : Store) :
  e <> "" -> p <> "" ->
  LoginPage.handleLogin (answering (app_js_serve now salt) st) (credentials e p)
  = match found e st with
    | None =>
        LoginPage.mkState e p (Some (JStr "User not found.")) false None None
    | Some u =>
        if bcrypt_compare p (u_password u) then
          match AppJs.signing_key JWT_SECRET with
          | Some _ =>
              LoginPage.mkState e p None false (Some "Login successful!")
                (Some "/dashboard")
          | None =>
              LoginPage.mkState e p (Some (JStr "Server error")) false None None
          end
        else
          LoginPage.mkState e p (Some (JStr "Invalid email or password.")) false
            None None
    end
  /\ LoginPage.handleLogin (answering (legacy_serve now) st) (credentials e p)
     = match found e st with
       | None =>
           LoginPage.mkState e p (Some (JStr "User not found")) false None None
       | Some u =>
           if String.eqb p (u_password u) then
             LoginPage.mkState e p None false (Some "Login successful!")
               (Some "/dashboard")
           else
             LoginPage.mkState e p (Some (JStr "Invalid email or password")) false
               None None
       end.
Proof.
  intros He Hp. split; [by apply app_js_login_page |].
  destruct (login_body e p) as [Hbe Hbp].
  unfold LoginPage.handleLogin, answering, credentials. simpl LoginPage.email.
  simpl LoginPage.password. rewrite legacy_serve_login.
  rewrite (legacy_login_strings _ st e p Hbe Hbp He Hp).
  destruct (found e st) as [u |]; [| reflexivity].
  by destruct (String.eqb p (u_password u)).
Qed.

End PagesAndServers.

Lemma signup_against_servers_witness :
  SignupPage.handleSubmit
    (answering (AppJs.serve Fake.hash Fake.compare Fake.encode Fake.check
                  Fake.static_layer (Some "key") false 1 "salt") app_js_alice)
    (typed "alice2" "a@x.com" "other")
  = SignupPage.mkState (SignupPage.formData (typed "alice2" "a@x.com" "other"))
      (Some (JStr "Email is already registered.")) None false.
Proof.
  apply (proj2 (signup_against_servers Fake.hash Fake.compare Fake.encode Fake.check
                  (fun _ => NaN) Fake.static_layer (Some "key") false 1 "salt"
                  "alice2" "a@x.com" "other" app_js_alice
                  ltac:(discriminate) ltac:(discriminate) ltac:(discriminate))
           (mkUser 0 "alice" "a@x.com" (Fake.hash "secret1" 10 "salt"))).
  reflexivity.
Defined.

Lemma login_page_against_servers_witness :
  LoginPage.handleLogin
    (answering (Legacy.serve (fun _ => NaN) Fake.compare Fake.static_layer false 1)
       legacy_alice)
    (credentials "a@x.com" "wrong")
  = match found "a@x.com" legacy_alice with
    | None =>
        LoginPage.mkState "a@x.com" "wrong" (Some (JStr "User not found")) false
          None None
    | Some u =>
        if String.eqb "wrong" (u_password u) then
          LoginPage.mkState "a@x.com" "wrong" None false (Some "Login successful!")
            (Some "/dashboard")
        else
          LoginPage.mkState "a@x.com" "wrong"
            (Some (JStr "Invalid email or password")) false None None
    end.
Proof.
  apply (proj2 (login_page_against_servers Fake.hash Fake.compare Fake.encode Fake.check
                  (fun _ => NaN) Fake.static_layer (Some "key") false 1 "salt"
                  "a@x.com" "wrong" legacy_alice
                  ltac:(discriminate) ltac:(discriminate))).
Defined.

(** ** From the signup page to the login page *)

Section SignupThenLogin.

Variable bcrypt_hash : string -> nat -> string -> string.
Variable bcrypt_compare : string -> string -> bool.
Variable jwt_encode : claims -> string -> nat -> nat -> string.
Variable jwt_check : string -> string -> nat -> jwt_error + decoded.
Variable static_layer : string -> Response.
Variable JWT_SECRET : option string.
Variable production : bool.

(** bcrypt accepts a password against its own digest. *)
Hypothesis bcrypt_compare_hash :
  forall data salt, bcrypt_compare data (bcrypt_hash data 10 salt) = true.

Abbreviation serve :=
  (AppJs.serve bcrypt_hash bcrypt_compare jwt_encode jwt_check static_layer
     JWT_SECRET production).

(** X17. With [app.js] and a signing secret configured: after the signup
    page has registered a new user, the login page, given the same email
    and password at any later time, goes to [/dashboard]; given another
    password that bcrypt rejects, it stays and shows "Invalid email or
    password." *)
Theorem signup_then_login (now later : nat) (salt salt' : string)
  (n m p : string) (st : Store) (key : string) :
  n <> "" -> m <> "" -> p <> "" -> found m st = None ->
  AppJs.signing_key JWT_SECRET = Some key ->
  let st1 := snd (serve now salt
                    (post_json "/register" (SignupPage.formData (typed n m p))) st) in
  LoginPage.handleLogin (answering (serve later salt') st1) (credentials m p)
  = LoginPage.mkState m p None false (Some "Login successful!") (Some "/dashboard")
  /\ (forall p',
         p' <> "" -> bcrypt_compare p' (bcrypt_hash p 10 salt) = false ->
         LoginPage.handleLogin (answering (serve later salt') st1) (credentials m p')
         = LoginPage.mkState m p' (Some (JStr "Invalid email or password.")) false
             None None).
Proof.
  intros Hn Hm Hp Hfound Hkey. cbv zeta.
  pose proof (typed_registration n m p st Hn Hm Hp Hfound) as Hreg.
  change (serve now salt (post_json "/register" (SignupPage.formData (typed n m p))) st)
    with (AppJs.post_register bcrypt_hash salt
            (post_json "/register" (SignupPage.formData (typed n m p))) st).
  rewrite (app_js_register_ok bcrypt_hash salt _ st n m p Hreg). cbn [snd].
  assert (Hstored : found m (registered st n m (bcrypt_hash p 10 salt))
                    = Some (mkUser (next_id st) n m (bcrypt_hash p 10 salt)))
    by (by apply find_has_email_registered).
  split.
  - rewrite (app_js_login_page bcrypt_hash bcrypt_compare jwt_encode jwt_check
               static_layer JWT_SECRET production later salt' m p
               (registered st n m (bcrypt_hash p 10 salt)) Hm Hp), Hstored.
    simpl u_password. by rewrite bcrypt_compare_hash, Hkey.
  - intros p' Hp' Hreject.
    rewrite (app_js_login_page bcrypt_hash bcrypt_compare jwt_encode jwt_check
               static_layer JWT_SECRET production later salt' m p'
               (registered st n m (bcrypt_hash p 10 salt)) Hm Hp'), Hstored.
    simpl u_password. by rewrite Hreject.
Qed.

End SignupThenLogin.

Lemma signup_then_login_witness :
  LoginPage.handleLogin
    (answering (AppJs.serve Fake.hash Fake.compare Fake.encode Fake.check
                  Fake.static_layer (Some "key") false 3000 "pepper")
       (snd (AppJs.serve Fake.hash Fake.compare Fake.encode Fake.check
               Fake.static_layer (Some "key") false 1000 "salt"
               (post_json "/register"
                  (SignupPage.formData (typed "alice" "a@x.com" "secret1")))
               empty_store)))
    (credentials "a@x.com" "secret1")
  = LoginPage.mkState "a@x.com" "secret1" None false (Some "Login successful!")
      (Some "/dashboard").
Proof.
  apply (proj1 (signup_then_login Fake.hash Fake.compare Fake.encode Fake.check
                  Fake.static_layer (Some "key") false
                  (fun data salt => FakeLaws.compare_hash data 10 salt)
                  1000 3000 "salt" "pepper" "alice" "a@x.com" "secret1" empty_store
                  "key" ltac:(discriminate) ltac:(discriminate) ltac:(discriminate)
                  eq_refl eq_refl)).
Defined.

(** ** The location page *)




Section LocationPageAndServers.

Variable bcrypt_hash : string -> nat -> string -> string.
Variable bcrypt_compare : string -> string -> bool.
Variable jwt_encode : claims -> string -> nat -> nat -> string.
Variable jwt_check : string -> string -> nat -> jwt_error + decoded.
Variable StringToNumber : string -> number.
Variable static_layer : string -> Response.
Variable JWT_SECRET : option string.
Variable production : bool.

Abbreviation app_js_serve :=
  (AppJs.serve bcrypt_hash bcrypt_compare jwt_encode jwt_check static_layer
     JWT_SECRET production).
Abbreviation legacy_serve :=
  (Legacy.serve StringToNumber bcrypt_compare static_layer production).


End LocationPageAndServers.

